(** * Week3/vertex_pipeline/main.cpp: the vertex transformation pipeline demo

    A shallow embedding of the demo's host program (global [activeSpace],
    the three callbacks, the render loop and [main]) and of its GLSL vertex
    and fragment stages, followed by the properties of the specification.

    Conventions.
    - C++ [int] and GLSL [int] values are [Z]; the constants of glfw3.h
      carry the values of that header.
    - C++/GLSL [float] values are exact rationals ([Q]); literals are
      written as in the source ([0.5], [1.0], ...).  Rounding is not
      modelled: the properties below are about which operations are applied
      to which operands, never about rounded results.
    - GLM (the math collaborator) is a record of functions, [MathLib]; the
      host program is parametrised over it.
    - GLFW and OpenGL are modelled by the part of their state the program
      reads or writes: the close flag, the key-state cache, the window
      title, the viewport, the uniforms of the shader program and the list
      of issued draw calls. *)

From Stdlib Require Import ZArith QArith List String Bool Lia.
Import ListNotations.

Local Open Scope Z_scope.

(** ** Constants *)

(** main.cpp, lines 12-13. *)
Definition SCR_WIDTH : Z := 800.
Definition SCR_HEIGHT : Z := 600.

(** main.cpp, lines 16-21: [enum CoordinateSpace]. *)
Definition MODEL_SPACE : Z := 0.
Definition WORLD_SPACE : Z := 1.
Definition VIEW_SPACE : Z := 2.
Definition CLIP_SPACE : Z := 3.

(** glfw3.h: key actions and the key codes the program names. *)
Definition GLFW_RELEASE : Z := 0.
Definition GLFW_PRESS : Z := 1.
Definition GLFW_REPEAT : Z := 2.
Definition GLFW_KEY_1 : Z := 49.
Definition GLFW_KEY_2 : Z := 50.
Definition GLFW_KEY_3 : Z := 51.
Definition GLFW_KEY_4 : Z := 52.
Definition GLFW_KEY_ESCAPE : Z := 256.
Definition GLFW_KEY_LAST : Z := 348.

(** ** Scalars, vectors and matrices *)

Definition float : Type := Q.
Bind Scope Q_scope with float.

Record vec3 : Type := mkvec3 { x3 : float; y3 : float; z3 : float }.

Record vec4 : Type :=
  mkvec4 { x4 : float; y4 : float; z4 : float; w4 : float }.

(** A [mat4] is four columns, as in GLSL and GLM (column-major). *)
Record mat4 : Type :=
  mkmat4 { col0 : vec4; col1 : vec4; col2 : vec4; col3 : vec4 }.

(** GLSL [vec4(v, w)] and [vec4(v, 1.0)]. *)
Definition vec4_of (v : vec3) (w : float) : vec4 :=
  mkvec4 (x3 v) (y3 v) (z3 v) w.

Definition vec4_scale (s : float) (v : vec4) : vec4 :=
  mkvec4 (s * x4 v)%Q (s * y4 v)%Q (s * z4 v)%Q (s * w4 v)%Q.

Definition vec4_add (a b : vec4) : vec4 :=
  mkvec4 (x4 a + x4 b)%Q (y4 a + y4 b)%Q (z4 a + z4 b)%Q (w4 a + w4 b)%Q.

(** GLSL [mat4 * vec4]: the linear combination of the columns. *)
Definition mat_vec (m : mat4) (v : vec4) : vec4 :=
  vec4_add
    (vec4_add
       (vec4_add (vec4_scale (x4 v) (col0 m)) (vec4_scale (y4 v) (col1 m)))
       (vec4_scale (z4 v) (col2 m)))
    (vec4_scale (w4 v) (col3 m)).

(** GLSL [mat4 * mat4]: column j of the product is [a] applied to column j
    of [b]. *)
Definition mat_mul (a b : mat4) : mat4 :=
  mkmat4 (mat_vec a (col0 b)) (mat_vec a (col1 b))
         (mat_vec a (col2 b)) (mat_vec a (col3 b)).

Declare Scope glsl_scope.
Delimit Scope glsl_scope with glsl.
Notation "a ** b" := (mat_mul a b)
  (at level 40, left associativity) : glsl_scope.
Notation "m *| v" := (mat_vec m v)
  (at level 40, left associativity) : glsl_scope.

Definition zero4 : vec4 := mkvec4 0.0 0.0 0.0 0.0.
Definition mat4_zero : mat4 := mkmat4 zero4 zero4 zero4 zero4.

(** ** The shader stages *)

(** Outputs of the vertex stage.  An output the stage never writes is
    undefined in GLSL; it is [None] here. *)
Record VSOut : Type :=
  mkVSOut { gl_Position : option vec4; vertexColor : option vec3 }.

(** main.cpp, lines 38-63: [main] of [vertexShaderSource].  In GLSL
    [projection * view * model * v] associates to the left. *)
Definition vs_main (model view projection : mat4) (activeSpace : Z)
    (aPos : vec3) : VSOut :=
  let modelPos := vec4_of aPos 1.0 in
  let worldPos := (model *| modelPos)%glsl in
  let viewPos := (view *| worldPos)%glsl in
  let clipPos := (projection *| viewPos)%glsl in
  if activeSpace =? 0 then
    mkVSOut (Some (projection ** view *| vec4_of aPos 1.0)%glsl)
            (Some (mkvec3 1.0 0.0 0.0))
  else if activeSpace =? 1 then
    mkVSOut (Some (projection ** view ** model *| vec4_of aPos 1.0)%glsl)
            (Some (mkvec3 0.0 1.0 0.0))
  else if activeSpace =? 2 then
    mkVSOut (Some (projection ** view ** model *| vec4_of aPos 1.0)%glsl)
            (Some (mkvec3 0.0 0.0 1.0))
  else if activeSpace =? 3 then
    mkVSOut (Some (projection ** view ** model *| vec4_of aPos 1.0)%glsl)
            (Some (mkvec3 1.0 1.0 0.0))
  else
    mkVSOut None None.


(** The colour labels of the specification. *)
Definition red : vec3 := mkvec3 1.0 0.0 0.0.
Definition green : vec3 := mkvec3 0.0 1.0 0.0.
Definition blue : vec3 := mkvec3 0.0 0.0 1.0.
Definition yellow : vec3 := mkvec3 1.0 1.0 0.0.

(** ** Geometry *)

(** main.cpp, lines 150-162: [float vertices[]]. *)
Definition vertices : list float :=
  [ (* Front face *)
    -0.5; -0.5;  0.5;
     0.5; -0.5;  0.5;
     0.5;  0.5;  0.5;
    -0.5;  0.5;  0.5;
    (* Back face *)
    -0.5; -0.5; -0.5;
     0.5; -0.5; -0.5;
     0.5;  0.5; -0.5;
    -0.5;  0.5; -0.5 ]%Q.

(** main.cpp, lines 164-188: [unsigned int indices[]]. *)
Definition indices : list Z :=
  [ (* Front face *)
    0; 1; 2;
    2; 3; 0;
    (* Right face *)
    1; 5; 6;
    6; 2; 1;
    (* Back face *)
    5; 4; 7;
    7; 6; 5;
    (* Left face *)
    4; 0; 3;
    3; 7; 4;
    (* Top face *)
    3; 2; 6;
    6; 7; 3;
    (* Bottom face *)
    4; 5; 1;
    1; 0; 4 ].

(** main.cpp, line 204: attribute 0 is three floats, stride three floats,
    offset 0.  [fetch_vertex buf i] is the attribute fetch of vertex [i];
    it is [None] when one of the three reads falls outside the buffer. *)
Definition fetch_vertex (buf : list float) (i : Z) : option vec3 :=
  if i <? 0 then None
  else
    let base := (3 * Z.to_nat i)%nat in
    match nth_error buf base, nth_error buf (S base),
          nth_error buf (S (S base)) with
    | Some x, Some y, Some z => Some (mkvec3 x y z)
    | _, _, _ => None
    end.








(** ** The math collaborator (GLM) *)

(** The five GLM entry points main.cpp calls (lines 227-233). *)
Record MathLib : Type := mkMathLib {
  glm_mat4 : float -> mat4;
  glm_rotate : mat4 -> float -> vec3 -> mat4;
  glm_translate : mat4 -> vec3 -> mat4;
  glm_radians : float -> float;
  glm_perspective : float -> float -> float -> float -> mat4
}.

(** ** Host state *)

Record Uniforms : Type := mkUniforms {
  u_model : mat4;
  u_view : mat4;
  u_projection : mat4;
  u_activeSpace : Z
}.

(** One issued [glDrawElements]: the uniforms current at the call and the
    element count. *)
Record DrawCall : Type := mkDrawCall {
  dc_uniforms : Uniforms;
  dc_count : Z
}.

Record Viewport : Type := mkViewport {
  vp_x : Z; vp_y : Z; vp_width : Z; vp_height : Z
}.

Record World : Type := mkWorld {
  activeSpace : Z;              (* the global of line 24 *)
  shouldClose : bool;           (* GLFW: the window's close flag *)
  keys : Z -> Z;                (* GLFW: last reported state of each key *)
  title : string;               (* GLFW: the window title *)
  viewport : option Viewport;   (* GL: last glViewport of the program *)
  uniforms : Uniforms;          (* GL: uniforms of shaderProgram *)
  draws : list DrawCall         (* GL: draw calls issued so far *)
}.

Definition set_activeSpace (v : Z) (w : World) : World :=
  mkWorld v (shouldClose w) (keys w) (title w) (viewport w) (uniforms w)
          (draws w).

Definition set_keys (k : Z -> Z) (w : World) : World :=
  mkWorld (activeSpace w) (shouldClose w) k (title w) (viewport w)
          (uniforms w) (draws w).

Definition set_uniforms (u : Uniforms) (w : World) : World :=
  mkWorld (activeSpace w) (shouldClose w) (keys w) (title w) (viewport w) u
          (draws w).

(** Uniforms are zero until the program sets them. *)
Definition no_uniforms : Uniforms :=
  mkUniforms mat4_zero mat4_zero mat4_zero 0.

(** The state when the render loop is first entered: [activeSpace] as
    initialised on line 24; the window as created on line 92 (open, no key
    down, the title given to glfwCreateWindow); no glViewport call yet. *)
Definition initial_world : World :=
  mkWorld MODEL_SPACE false (fun _ => GLFW_RELEASE)
          "Vertex Transformation Pipeline" None no_uniforms [].

(** ** The windowing and rendering collaborators, as far as main.cpp uses
    them *)

Definition glfwWindowShouldClose (w : World) : bool := shouldClose w.

Definition glfwSetWindowShouldClose (v : bool) (w : World) : World :=
  mkWorld (activeSpace w) v (keys w) (title w) (viewport w) (uniforms w)
          (draws w).

(** glfwGetKey returns the last state reported for the key: GLFW_PRESS or
    GLFW_RELEASE (sticky keys are off, the program never enables them). *)
Definition glfwGetKey (key : Z) (w : World) : Z := keys w key.

Definition glfwSetWindowTitle (s : string) (w : World) : World :=
  mkWorld (activeSpace w) (shouldClose w) (keys w) s (viewport w)
          (uniforms w) (draws w).

Definition glViewport (x y width height : Z) (w : World) : World :=
  mkWorld (activeSpace w) (shouldClose w) (keys w) (title w)
          (Some (mkViewport x y width height)) (uniforms w) (draws w).

(** glUniformMatrix4fv / glUniform1i at the location of the named uniform. *)
Definition glUniform_model (m : mat4) (w : World) : World :=
  let u := uniforms w in
  set_uniforms (mkUniforms m (u_view u) (u_projection u) (u_activeSpace u)) w.

Definition glUniform_view (m : mat4) (w : World) : World :=
  let u := uniforms w in
  set_uniforms (mkUniforms (u_model u) m (u_projection u) (u_activeSpace u)) w.

Definition glUniform_projection (m : mat4) (w : World) : World :=
  let u := uniforms w in
  set_uniforms (mkUniforms (u_model u) (u_view u) m (u_activeSpace u)) w.

Definition glUniform_activeSpace (v : Z) (w : World) : World :=
  let u := uniforms w in
  set_uniforms (mkUniforms (u_model u) (u_view u) (u_projection u) v) w.

(** glDrawElements(GL_TRIANGLES, count, GL_UNSIGNED_INT, 0). *)
Definition glDrawElements (count : Z) (w : World) : World :=
  mkWorld (activeSpace w) (shouldClose w) (keys w) (title w) (viewport w)
          (uniforms w) (draws w ++ [mkDrawCall (uniforms w) count]).

(** What glfwPollEvents can deliver to this window.  A key event carries
    the action the key callback receives: GLFW_PRESS, GLFW_RELEASE or
    GLFW_REPEAT. *)
Inductive Event : Type :=
| KeyEvent (key scancode action mods : Z)
| FramebufferSizeEvent (width height : Z)
| CloseEvent.

(** GLFW's bookkeeping on a key event, before the key callback runs: a
    press or a release of a known key becomes the key's last reported
    state; a repeat leaves it as it is (pressed). *)
Definition glfw_input_key (key action : Z) (w : World) : World :=
  if (0 <=? key) && (key <=? GLFW_KEY_LAST) && negb (action =? GLFW_REPEAT)
  then set_keys (fun k => if k =? key then action else keys w k) w
  else w.

(** ** The callbacks and processInput *)

(** main.cpp, lines 284-288. *)
Definition processInput (w : World) : World :=
  if glfwGetKey GLFW_KEY_ESCAPE w =? GLFW_PRESS
  then glfwSetWindowShouldClose true w
  else w.

(** main.cpp, lines 291-294. *)
Definition framebuffer_size_callback (width height : Z) (w : World) : World :=
  glViewport 0 0 width height w.

(** main.cpp, lines 297-315. *)
Definition key_callback (key scancode action mods : Z) (w : World) : World :=
  if action =? GLFW_PRESS then
    if key =? GLFW_KEY_1 then set_activeSpace MODEL_SPACE w
    else if key =? GLFW_KEY_2 then set_activeSpace WORLD_SPACE w
    else if key =? GLFW_KEY_3 then set_activeSpace VIEW_SPACE w
    else if key =? GLFW_KEY_4 then set_activeSpace CLIP_SPACE w
    else w
  else w.

(** The callbacks are registered on lines 100-101; no close callback is
    registered, so a close request only raises the close flag. *)
Definition dispatch (e : Event) (w : World) : World :=
  match e with
  | KeyEvent key scancode action mods =>
      key_callback key scancode action mods (glfw_input_key key action w)
  | FramebufferSizeEvent width height =>
      framebuffer_size_callback width height w
  | CloseEvent => glfwSetWindowShouldClose true w
  end.

Definition glfwPollEvents (batch : list Event) (w : World) : World :=
  fold_left (fun acc e => dispatch e acc) batch w.

(** ** The render loop *)

(** main.cpp, lines 251-265: the [switch] has no default case, so
    [spaceInfo] stays empty for any other value. *)
Definition spaceInfo (a : Z) : string :=
  if a =? MODEL_SPACE then "MODEL SPACE (Press 1-4 to change)"
  else if a =? WORLD_SPACE then "WORLD SPACE (Press 1-4 to change)"
  else if a =? VIEW_SPACE then "VIEW SPACE (Press 1-4 to change)"
  else if a =? CLIP_SPACE then "CLIP SPACE (Press 1-4 to change)"
  else EmptyString.

(** What the environment supplies to one loop iteration: the value of
    glfwGetTime() and the events glfwPollEvents dispatches. *)
Record FrameInput : Type := mkFrameInput {
  time : float;
  events : list Event
}.

Section Host.

Variable glm : MathLib.

(** main.cpp, lines 227-233. *)
Definition frame_model (t : float) : mat4 :=
  let model := glm_mat4 glm 1.0 in
  glm_rotate glm model t (mkvec3 0.5 1.0 0.0).

Definition frame_view : mat4 :=
  let view := glm_mat4 glm 1.0 in
  glm_translate glm view (mkvec3 0.0 0.0 (-3.0)).

Definition frame_projection : mat4 :=
  glm_perspective glm (glm_radians glm 45.0)
                  (inject_Z SCR_WIDTH / inject_Z SCR_HEIGHT) 0.1 100.0.

(** main.cpp, lines 224-266: the body of the loop between processInput
    and glfwSwapBuffers (the clear calls and glUseProgram leave the
    modelled state alone). *)
Definition render (t : float) (w : World) : World :=
  let model := frame_model t in
  let view := frame_view in
  let projection := frame_projection in
  let w := glUniform_model model w in
  let w := glUniform_view view w in
  let w := glUniform_projection projection w in
  let w := glUniform_activeSpace (activeSpace w) w in
  let w := glDrawElements 36 w in
  glfwSetWindowTitle
    ("Vertex Transformation Pipeline - " ++ spaceInfo (activeSpace w)) w.

(** main.cpp, lines 216-270: one pass through the loop body. *)
Definition iteration (f : FrameInput) (w : World) : World :=
  glfwPollEvents (events f) (render (time f) (processInput w)).

(** main.cpp, line 214: [while (!glfwWindowShouldClose(window))].  The
    result is [(true, w)] when the loop has exited in state [w], and
    [(false, w)] when the supplied frames are used up with the loop still
    running. *)
Fixpoint render_loop (fs : list FrameInput) (w : World) : bool * World :=
  if glfwWindowShouldClose w then (true, w)
  else
    match fs with
    | [] => (false, w)
    | f :: fs' => render_loop fs' (iteration f w)
    end.

End Host.

(** ** main *)

(** What the environment decides during start-up, and the frames it
    supplies afterwards. *)
Record Env : Type := mkEnv {
  window_created : bool;      (* glfwCreateWindow returned a window *)
  glad_loaded : bool;         (* gladLoadGLLoader returned non-zero *)
  vertex_compiled : bool;     (* GL_COMPILE_STATUS of the vertex shader *)
  vertex_log : string;
  fragment_compiled : bool;   (* GL_COMPILE_STATUS of the fragment shader *)
  fragment_log : string;
  program_linked : bool;      (* GL_LINK_STATUS of shaderProgram *)
  link_log : string;
  frames : list FrameInput
}.

(** [Exited c]: main returned [c].  [Looping]: the supplied frames are used
    up and the render loop has not exited. *)
Inductive Status : Type :=
| Exited (code : Z)
| Looping.

Record Run : Type := mkRun {
  status : Status;
  stdout : list string;      (* one entry per line ended by std::endl *)
  final : option World       (* the state the loop was left in *)
}.

Definition newline : string := String (Ascii.ascii_of_nat 10) EmptyString.

(** main.cpp, lines 115-145: the three checks, in order. *)
Definition shader_diagnostics (e : Env) : list string :=
  (if vertex_compiled e then []
   else ["ERROR::SHADER::VERTEX::COMPILATION_FAILED" ++ newline
           ++ vertex_log e]%string)
  ++ (if fragment_compiled e then []
      else ["ERROR::SHADER::FRAGMENT::COMPILATION_FAILED" ++ newline
              ++ fragment_log e]%string)
  ++ (if program_linked e then []
      else ["ERROR::SHADER::PROGRAM::LINKING_FAILED" ++ newline
              ++ link_log e]%string).

(** main.cpp, lines 83-281. *)
Definition main (glm : MathLib) (e : Env) : Run :=
  if negb (window_created e) then
    mkRun (Exited (-1)) ["Failed to create GLFW window"%string] None
  else if negb (glad_loaded e) then
    mkRun (Exited (-1)) ["Failed to initialize GLAD"%string] None
  else
    let out := shader_diagnostics e in
    let '(closed, w) := render_loop glm (frames e) initial_world in
    mkRun (if closed then Exited 0 else Looping) out (Some w).

(** ** A stand-in math library for evaluating the model

    [glm_mat4] and [glm_translate] are GLM's (exact) definitions; rotation,
    degree conversion and perspective need trigonometry, so the stand-in
    returns values that expose the arguments they were given. *)
Definition probe_mat4 (s : float) : mat4 :=
  mkmat4 (mkvec4 s 0.0 0.0 0.0) (mkvec4 0.0 s 0.0 0.0)
         (mkvec4 0.0 0.0 s 0.0) (mkvec4 0.0 0.0 0.0 s).

Definition probe_translate (m : mat4) (v : vec3) : mat4 :=
  mkmat4 (col0 m) (col1 m) (col2 m)
         (vec4_add
            (vec4_add
               (vec4_add (vec4_scale (x3 v) (col0 m))
                         (vec4_scale (y3 v) (col1 m)))
               (vec4_scale (z3 v) (col2 m)))
            (col3 m)).

Definition probe_rotate (m : mat4) (angle : float) (axis : vec3) : mat4 :=
  mkmat4 (col0 m) (col1 m) (col2 m) (vec4_of axis angle).

Definition probe_perspective (fovy aspect zNear zFar : float) : mat4 :=
  mkmat4 (mkvec4 fovy 0.0 0.0 0.0) (mkvec4 0.0 aspect 0.0 0.0)
         (mkvec4 0.0 0.0 zNear 0.0) (mkvec4 0.0 0.0 0.0 zFar).

Definition probe_lib : MathLib :=
  mkMathLib probe_mat4 probe_rotate probe_translate (fun d => d)
            probe_perspective.

(** ** Reachable states and the predicates the properties are stated with *)

Definition valid_space (a : Z) : Prop :=
  a = MODEL_SPACE \/ a = WORLD_SPACE \/ a = VIEW_SPACE \/ a = CLIP_SPACE.

(** The program points between which the host state can be observed:
    after processInput, after the rendering part of an iteration, and after
    each callback run by glfwPollEvents. *)
Inductive step (glm : MathLib) : World -> World -> Prop :=
| step_processInput : forall w, step glm w (processInput w)
| step_render : forall t w, step glm w (render glm t w)
| step_dispatch : forall e w, step glm w (dispatch e w).

Inductive reachable (glm : MathLib) : World -> Prop :=
| reachable_init : reachable glm initial_world
| reachable_step : forall w w',
    reachable glm w -> step glm w w' -> reachable glm w'.

(** A draw call as one iteration of the loop issues it at time [t]. *)
Definition frame_draw (glm : MathLib) (t : float) (d : DrawCall) : Prop :=
  u_model (dc_uniforms d) = frame_model glm t /\
  u_view (dc_uniforms d) = frame_view glm /\
  u_projection (dc_uniforms d) = frame_projection glm /\
  valid_space (u_activeSpace (dc_uniforms d)) /\
  dc_count d = 36.

(** What holds of every reachable state: [activeSpace] is valid, and every
    draw call issued so far is the draw call of some frame. *)
Definition world_ok (glm : MathLib) (w : World) : Prop :=
  valid_space (activeSpace w) /\
  Forall (fun d => exists t, frame_draw glm t d) (draws w).

(** The environment [e] with the three shader checks succeeding. *)
Definition with_shaders_ok (e : Env) : Env :=
  mkEnv (window_created e) (glad_loaded e) true (vertex_log e) true
        (fragment_log e) true (link_log e) (frames e).

(** "A resize to (W,H) makes the following frame upload the projection of
    aspect ratio W/H", for a given math library and resize. *)
Definition resize_sets_aspect (glm : MathLib) (W H : Z) : Prop :=
  forall (w : World) (f : FrameInput),
    u_projection
      (uniforms (iteration glm f (framebuffer_size_callback W H w))) =
    glm_perspective glm (glm_radians glm 45.0)
                    (inject_Z W / inject_Z H) 0.1 100.0.

(** "Every press edge of Escape raises the close flag": whenever a batch of
    events holds an Escape press, the flag is up once the batch has been
    dispatched and the key polled by the next processInput. *)
Definition escape_edge_triggered : Prop :=
  forall (w : World) (batch : list Event) (scancode mods : Z),
    In (KeyEvent GLFW_KEY_ESCAPE scancode GLFW_PRESS mods) batch ->
    shouldClose (processInput (glfwPollEvents batch w)) = true.








(** The transforms of the frame rendered at time [t], spelled out. *)
Definition frame_transforms_at (glm : MathLib) (t : float) (u : Uniforms)
    : Prop :=
  u_model u = glm_rotate glm (glm_mat4 glm 1.0) t (mkvec3 0.5 1.0 0.0) /\
  u_view u = glm_translate glm (glm_mat4 glm 1.0) (mkvec3 0.0 0.0 (-3.0)) /\
  u_projection u =
    glm_perspective glm (glm_radians glm 45.0)
                    (inject_Z SCR_WIDTH / inject_Z SCR_HEIGHT) 0.1 100.0.



(** ** Further predicates, for the properties beyond the pipeline basics *)

(** main.cpp, lines 41-44: the illustrative positions the vertex stage
    computes before it chooses its output; [vs_clipPos] is [clipPos]. *)
Definition vs_clipPos (model view projection : mat4) (aPos : vec3) : vec4 :=
  let modelPos := vec4_of aPos 1.0 in
  let worldPos := (model *| modelPos)%glsl in
  let viewPos := (view *| worldPos)%glsl in
  (projection *| viewPos)%glsl.

(** Componentwise equality of rationals on [vec4]. *)
Definition vec4_equiv (a b : vec4) : Prop :=
  (x4 a == x4 b /\ y4 a == y4 b /\ z4 a == z4 b /\ w4 a == w4 b)%Q.



(** Events classified by what they can change. *)
Definition is_space_key (key : Z) : bool :=
  (key =? GLFW_KEY_1) || (key =? GLFW_KEY_2) ||
  (key =? GLFW_KEY_3) || (key =? GLFW_KEY_4).

Definition is_space_press (e : Event) : bool :=
  match e with
  | KeyEvent key _ action _ => (action =? GLFW_PRESS) && is_space_key key
  | _ => false
  end.

Definition space_of_key (key : Z) : Z := key - GLFW_KEY_1.

Definition is_resize (e : Event) : bool :=
  match e with FramebufferSizeEvent _ _ => true | _ => false end.

(** An event that can lead to the loop exiting: a close request, or a
    press of Escape. *)
Definition is_exit_event (e : Event) : bool :=
  match e with
  | CloseEvent => true
  | KeyEvent key _ action _ =>
      (key =? GLFW_KEY_ESCAPE) && (action =? GLFW_PRESS)
  | FramebufferSizeEvent _ _ => false
  end.

Definition quiet_frame (f : FrameInput) : bool :=
  forallb (fun e => negb (is_exit_event e)) (events f).

(** [activeSpace] after a batch of events, from [activeSpace] before it. *)
Definition space_after (batch : list Event) (a : Z) : Z :=
  fold_left
    (fun acc e =>
       match e with
       | KeyEvent key _ _ _ =>
           if is_space_press e then space_of_key key else acc
       | _ => acc
       end)
    batch a.

(** The value of [activeSpace] each frame of [fs] is drawn with, when the
    first frame starts from [a]. *)
Fixpoint spaces_drawn (fs : list FrameInput) (a : Z) : list Z :=
  match fs with
  | [] => []
  | f :: fs' => a :: spaces_drawn fs' (space_after (events f) a)
  end.

Definition drawn_space (d : DrawCall) : Z := u_activeSpace (dc_uniforms d).

Definition failures (e : Env) : nat :=
  (if vertex_compiled e then 0 else 1) +
  (if fragment_compiled e then 0 else 1) +
  (if program_linked e then 0 else 1).

Definition title_prefix : string := "Vertex Transformation Pipeline - ".

(** Case analysis on every test of a goal. *)
Ltac by_cases :=
  repeat match goal with
         | |- context [if ?c then _ else _] => destruct c
         end;
  try reflexivity.

(** * Properties *)

(** ** The vertex stage *)

(** C1.  For every position and every matrix triple the vertex stage emits
    [projection * view * aPos] when [activeSpace] is 0 (the model matrix is
    not applied) and [projection * view * model * aPos] when it is 1, 2 or
    3; the colour is red, green, blue, yellow for 0, 1, 2, 3; and the
    colour depends on [activeSpace] alone, not on the matrices or the
    position. *)
Theorem vs_main_position_and_color :
  forall (model view projection : mat4) (aPos : vec3),
    vs_main model view projection 0 aPos =
      mkVSOut (Some (projection ** view *| vec4_of aPos 1.0)%glsl)
              (Some red) /\
    vs_main model view projection 1 aPos =
      mkVSOut (Some (projection ** view ** model *| vec4_of aPos 1.0)%glsl)
              (Some green) /\
    vs_main model view projection 2 aPos =
      mkVSOut (Some (projection ** view ** model *| vec4_of aPos 1.0)%glsl)
              (Some blue) /\
    vs_main model view projection 3 aPos =
      mkVSOut (Some (projection ** view ** model *| vec4_of aPos 1.0)%glsl)
              (Some yellow) /\
    (forall model', gl_Position (vs_main model' view projection 0 aPos) =
                    gl_Position (vs_main model view projection 0 aPos)) /\
    (forall a model' view' projection' aPos',
        vertexColor (vs_main model' view' projection' a aPos') =
        vertexColor (vs_main model view projection a aPos)).
Proof.
  intros model view projection aPos.
  repeat split; try reflexivity.
  intros a model' view' projection' aPos'.
  unfold vs_main; cbv zeta.
  destruct (a =? 0); [reflexivity|].
  destruct (a =? 1); [reflexivity|].
  destruct (a =? 2); [reflexivity|].
  destruct (a =? 3); reflexivity.
Qed.

(** With a model matrix that doubles lengths, and identity view and
    projection, the corner (0.5, 0.5, 0.5) stays put under [activeSpace] 0
    and moves to (1, 1, 1) under [activeSpace] 1. *)
Example vs_main_model_matters :
  let double := mkmat4 (mkvec4 2.0 0.0 0.0 0.0) (mkvec4 0.0 2.0 0.0 0.0)
                       (mkvec4 0.0 0.0 2.0 0.0) (mkvec4 0.0 0.0 0.0 1.0) in
  let id := probe_mat4 1.0 in
  let p := mkvec3 0.5 0.5 0.5 in
  match gl_Position (vs_main double id id 0 p),
        gl_Position (vs_main double id id 1 p) with
  | Some a, Some b =>
      (x4 a == 0.5 /\ y4 a == 0.5 /\ z4 a == 0.5 /\ w4 a == 1)%Q /\
      (x4 b == 1 /\ y4 b == 1 /\ z4 b == 1 /\ w4 b == 1)%Q
  | _, _ => False
  end.
Proof. vm_compute. repeat split; reflexivity. Qed.

(** ** How each operation acts on the fields of the state *)

Lemma processInput_fields : forall w,
  activeSpace (processInput w) = activeSpace w /\
  keys (processInput w) = keys w /\
  viewport (processInput w) = viewport w /\
  uniforms (processInput w) = uniforms w /\
  draws (processInput w) = draws w.
Proof. intro w; unfold processInput; by_cases; repeat split. Qed.

Lemma processInput_shouldClose : forall w,
  shouldClose (processInput w) =
  shouldClose w || (keys w GLFW_KEY_ESCAPE =? GLFW_PRESS).
Proof.
  intro w; unfold processInput, glfwGetKey.
  destruct (keys w GLFW_KEY_ESCAPE =? GLFW_PRESS); simpl.
  - now rewrite orb_true_r.
  - now rewrite orb_false_r.
Qed.

Section HostFacts.

Variable glm : MathLib.

Lemma render_fields : forall t w,
  activeSpace (render glm t w) = activeSpace w /\
  shouldClose (render glm t w) = shouldClose w /\
  keys (render glm t w) = keys w /\
  viewport (render glm t w) = viewport w.
Proof. intros; repeat split. Qed.

Lemma render_uniforms : forall t w,
  uniforms (render glm t w) =
  mkUniforms (frame_model glm t) (frame_view glm) (frame_projection glm)
             (activeSpace w).
Proof. reflexivity. Qed.

Lemma render_draws : forall t w,
  draws (render glm t w) =
  draws w ++ [mkDrawCall (uniforms (render glm t w)) 36].
Proof. reflexivity. Qed.

End HostFacts.

Lemma key_callback_cases : forall key scancode action mods w,
  key_callback key scancode action mods w = w \/
  exists v, valid_space v /\
            key_callback key scancode action mods w = set_activeSpace v w.
Proof.
  intros; unfold key_callback, valid_space.
  destruct (action =? GLFW_PRESS); [|now left].
  destruct (key =? GLFW_KEY_1); [right; eexists; split; [|reflexivity]; tauto|].
  destruct (key =? GLFW_KEY_2); [right; eexists; split; [|reflexivity]; tauto|].
  destruct (key =? GLFW_KEY_3); [right; eexists; split; [|reflexivity]; tauto|].
  destruct (key =? GLFW_KEY_4); [right; eexists; split; [|reflexivity]; tauto|].
  now left.
Qed.

Lemma key_callback_fields : forall key scancode action mods w,
  shouldClose (key_callback key scancode action mods w) = shouldClose w /\
  keys (key_callback key scancode action mods w) = keys w /\
  viewport (key_callback key scancode action mods w) = viewport w /\
  uniforms (key_callback key scancode action mods w) = uniforms w /\
  draws (key_callback key scancode action mods w) = draws w.
Proof.
  intros.
  destruct (key_callback_cases key scancode action mods w)
    as [-> | [v [_ ->]]]; repeat split.
Qed.

Lemma glfw_input_key_fields : forall key action w,
  activeSpace (glfw_input_key key action w) = activeSpace w /\
  shouldClose (glfw_input_key key action w) = shouldClose w /\
  viewport (glfw_input_key key action w) = viewport w /\
  uniforms (glfw_input_key key action w) = uniforms w /\
  draws (glfw_input_key key action w) = draws w.
Proof. intros; unfold glfw_input_key; by_cases; repeat split. Qed.

Lemma dispatch_fields : forall e w,
  uniforms (dispatch e w) = uniforms w /\ draws (dispatch e w) = draws w.
Proof.
  intros [key scancode action mods | width height | ] w; simpl.
  - destruct (key_callback_fields key scancode action mods
                (glfw_input_key key action w)) as (_ & _ & _ & -> & ->).
    destruct (glfw_input_key_fields key action w) as (_ & _ & _ & -> & ->).
    now split.
  - now split.
  - now split.
Qed.

Lemma dispatch_valid_space : forall e w,
  valid_space (activeSpace w) -> valid_space (activeSpace (dispatch e w)).
Proof.
  intros [key scancode action mods | width height | ] w Hv; simpl; auto.
  destruct (key_callback_cases key scancode action mods
              (glfw_input_key key action w)) as [-> | [v [Hval ->]]].
  - now destruct (glfw_input_key_fields key action w) as (-> & _).
  - exact Hval.
Qed.

(** The close flag is never lowered. *)
Lemma dispatch_keeps_close : forall e w,
  shouldClose w = true -> shouldClose (dispatch e w) = true.
Proof.
  intros [key scancode action mods | width height | ] w Hc; simpl; auto.
  destruct (key_callback_fields key scancode action mods
              (glfw_input_key key action w)) as (-> & _).
  now destruct (glfw_input_key_fields key action w) as (_ & -> & _).
Qed.

Lemma glfwPollEvents_keeps_close : forall batch w,
  shouldClose w = true -> shouldClose (glfwPollEvents batch w) = true.
Proof.
  unfold glfwPollEvents.
  induction batch as [|e batch IH]; intros w Hc; simpl; auto.
  apply IH, dispatch_keeps_close, Hc.
Qed.

Lemma glfwPollEvents_close_event : forall batch w,
  In CloseEvent batch -> shouldClose (glfwPollEvents batch w) = true.
Proof.
  unfold glfwPollEvents.
  induction batch as [|e batch IH]; intros w Hin; simpl in *; [tauto|].
  destruct Hin as [-> | Hin].
  - apply (glfwPollEvents_keeps_close batch). reflexivity.
  - apply IH, Hin.
Qed.

Lemma glfwPollEvents_fields : forall batch w,
  uniforms (glfwPollEvents batch w) = uniforms w /\
  draws (glfwPollEvents batch w) = draws w.
Proof.
  unfold glfwPollEvents.
  induction batch as [|e batch IH]; intros w; simpl; [now split|].
  destruct (IH (dispatch e w)) as [-> ->].
  apply dispatch_fields.
Qed.

Lemma glfwPollEvents_valid_space : forall batch w,
  valid_space (activeSpace w) ->
  valid_space (activeSpace (glfwPollEvents batch w)).
Proof.
  unfold glfwPollEvents.
  induction batch as [|e batch IH]; intros w Hv; simpl; auto.
  apply IH, dispatch_valid_space, Hv.
Qed.

(** ** Invariants of the reachable states *)

Section Invariants.

Variable glm : MathLib.

Lemma world_ok_initial : world_ok glm initial_world.
Proof. split; [now left | constructor]. Qed.

Lemma world_ok_processInput : forall w,
  world_ok glm w -> world_ok glm (processInput w).
Proof.
  intros w [Hv Hd].
  destruct (processInput_fields w) as (Ha & _ & _ & _ & Hdr).
  split; [now rewrite Ha | now rewrite Hdr].
Qed.

Lemma world_ok_render : forall t w,
  world_ok glm w -> world_ok glm (render glm t w).
Proof.
  intros t w [Hv Hd]; split; [exact Hv|].
  rewrite render_draws, render_uniforms.
  apply Forall_app; split; [exact Hd|].
  constructor; [|constructor].
  exists t; repeat split; assumption.
Qed.

Lemma world_ok_dispatch : forall e w,
  world_ok glm w -> world_ok glm (dispatch e w).
Proof.
  intros e w [Hv Hd]; split.
  - now apply dispatch_valid_space.
  - now destruct (dispatch_fields e w) as [_ ->].
Qed.

Lemma world_ok_reachable : forall w, reachable glm w -> world_ok glm w.
Proof.
  induction 1 as [|w w' _ IH Hstep].
  - apply world_ok_initial.
  - destruct Hstep.
    + now apply world_ok_processInput.
    + now apply world_ok_render.
    + now apply world_ok_dispatch.
Qed.

Lemma reachable_glfwPollEvents : forall batch w,
  reachable glm w -> reachable glm (glfwPollEvents batch w).
Proof.
  unfold glfwPollEvents.
  induction batch as [|e batch IH]; intros w Hr; simpl; [exact Hr|].
  apply IH. eapply reachable_step; [exact Hr | constructor].
Qed.

Lemma reachable_iteration : forall f w,
  reachable glm w -> reachable glm (iteration glm f w).
Proof.
  intros f w Hr; unfold iteration.
  apply reachable_glfwPollEvents.
  eapply reachable_step; [|apply step_render].
  eapply reachable_step; [exact Hr | apply step_processInput].
Qed.

Lemma reachable_render_loop : forall fs w,
  reachable glm w -> reachable glm (snd (render_loop glm fs w)).
Proof.
  induction fs as [|f fs IH]; intros w Hr; simpl;
    destruct (glfwWindowShouldClose w); simpl; auto.
  apply IH, reachable_iteration, Hr.
Qed.

(** The loop has exited exactly when the close flag is up. *)
Lemma render_loop_exit : forall fs w,
  fst (render_loop glm fs w) = shouldClose (snd (render_loop glm fs w)).
Proof.
  induction fs as [|f fs IH]; intros w; simpl;
    unfold glfwWindowShouldClose;
    destruct (shouldClose w) eqn:Hc; simpl; auto.
Qed.

Lemma iteration_keeps_close : forall f w,
  shouldClose (processInput w) = true ->
  shouldClose (iteration glm f w) = true.
Proof.
  intros f w Hc; unfold iteration.
  apply glfwPollEvents_keeps_close.
  now destruct (render_fields glm (time f) (processInput w)) as (_ & -> & _).
Qed.

(** A close request in some supplied frame ends the loop. *)
Lemma render_loop_closes : forall fs w,
  (exists f, In f fs /\ In CloseEvent (events f)) ->
  fst (render_loop glm fs w) = true.
Proof.
  induction fs as [|f fs IH]; intros w [g [Hin Hev]]; [destruct Hin|].
  simpl. unfold glfwWindowShouldClose.
  destruct (shouldClose w) eqn:Hc; [reflexivity|].
  destruct Hin as [-> | Hin].
  - assert (Hup : shouldClose (iteration glm g w) = true)
      by (unfold iteration; now apply glfwPollEvents_close_event).
    destruct fs; simpl; unfold glfwWindowShouldClose; now rewrite Hup.
  - apply IH. now exists g.
Qed.

End Invariants.

(** ** The scene state machine *)

(** C4.  From every prior state, a press of '1', '2', '3', '4' sets
    [activeSpace] to MODEL_SPACE, WORLD_SPACE, VIEW_SPACE, CLIP_SPACE and
    touches nothing else; an event whose action is not a press (release,
    repeat), or whose key is none of the four, leaves the whole state as it
    was. *)
Theorem key_callback_transitions :
  forall (w : World) (scancode mods : Z),
    key_callback GLFW_KEY_1 scancode GLFW_PRESS mods w =
      set_activeSpace MODEL_SPACE w /\
    key_callback GLFW_KEY_2 scancode GLFW_PRESS mods w =
      set_activeSpace WORLD_SPACE w /\
    key_callback GLFW_KEY_3 scancode GLFW_PRESS mods w =
      set_activeSpace VIEW_SPACE w /\
    key_callback GLFW_KEY_4 scancode GLFW_PRESS mods w =
      set_activeSpace CLIP_SPACE w /\
    (forall key action,
        action <> GLFW_PRESS \/
        ~ In key [GLFW_KEY_1; GLFW_KEY_2; GLFW_KEY_3; GLFW_KEY_4] ->
        key_callback key scancode action mods w = w).
Proof.
  intros w scancode mods.
  repeat split; try reflexivity.
  intros key action H; unfold key_callback.
  destruct (Z.eqb_spec action GLFW_PRESS) as [Ha|Ha]; [|reflexivity].
  destruct H as [H|H]; [contradiction|].
  destruct (Z.eqb_spec key GLFW_KEY_1) as [->|_]; [elim H; simpl; auto|].
  destruct (Z.eqb_spec key GLFW_KEY_2) as [->|_]; [elim H; simpl; auto|].
  destruct (Z.eqb_spec key GLFW_KEY_3) as [->|_]; [elim H; simpl; auto|].
  destruct (Z.eqb_spec key GLFW_KEY_4) as [->|_]; [elim H; simpl; auto|].
  reflexivity.
Qed.

(** A repeat of '3' in WORLD_SPACE: the hypothesis of the last part holds
    and the state is kept. *)
Lemma key_callback_transitions_witness :
  let w := set_activeSpace WORLD_SPACE initial_world in
  (GLFW_REPEAT <> GLFW_PRESS \/
   ~ In GLFW_KEY_3 [GLFW_KEY_1; GLFW_KEY_2; GLFW_KEY_3; GLFW_KEY_4]) /\
  key_callback GLFW_KEY_3 7 GLFW_REPEAT 0 w = w.
Proof.
  split.
  - left; discriminate.
  - apply (key_callback_transitions
             (set_activeSpace WORLD_SPACE initial_world) 7 0).
    left; discriminate.
Defined.

(** The same transitions as glfwPollEvents delivers them: GLFW's own
    bookkeeping does not touch [activeSpace]. *)
Lemma dispatch_key_activeSpace : forall key scancode action mods w,
  activeSpace (dispatch (KeyEvent key scancode action mods) w) =
  activeSpace (key_callback key scancode action mods w).
Proof.
  intros; simpl.
  destruct (key_callback_cases key scancode action mods w)
    as [E1 | [v [_ E1]]];
  destruct (key_callback_cases key scancode action mods
              (glfw_input_key key action w)) as [E2 | [v' [_ E2]]];
  revert E1 E2; unfold key_callback, glfw_input_key; by_cases.
Qed.

(** C5.  [activeSpace] starts as MODEL_SPACE; key_callback, its only
    writer, maps a valid value to a valid value; hence in every reachable
    state, and in every state the render loop is left in, [activeSpace] is
    one of 0, 1, 2, 3. *)
Theorem activeSpace_invariant :
  forall glm : MathLib,
    activeSpace initial_world = MODEL_SPACE /\
    (forall key scancode action mods w,
        valid_space (activeSpace w) ->
        valid_space (activeSpace (key_callback key scancode action mods w)))
    /\
    (forall w, reachable glm w -> 0 <= activeSpace w <= 3) /\
    (forall w, reachable glm w -> valid_space (activeSpace w)) /\
    (forall fs,
        valid_space (activeSpace (snd (render_loop glm fs initial_world)))).
Proof.
  intro glm.
  assert (Hreach : forall w, reachable glm w -> valid_space (activeSpace w))
    by (intros w Hr; apply (world_ok_reachable glm w Hr)).
  split; [reflexivity|].
  split.
  { intros key scancode action mods w Hv.
    destruct (key_callback_cases key scancode action mods w)
      as [-> | [v [Hval ->]]]; assumption. }
  split.
  { intros w Hr. specialize (Hreach w Hr).
    unfold valid_space, MODEL_SPACE, WORLD_SPACE, VIEW_SPACE, CLIP_SPACE
      in Hreach. lia. }
  split; [exact Hreach|].
  intro fs. apply Hreach, reachable_render_loop, reachable_init.
Qed.

(** The state after '4' has been pressed and one frame rendered is
    reachable, and its [activeSpace] is valid. *)
Lemma activeSpace_invariant_witness :
  let w := render probe_lib 0.0
             (dispatch (KeyEvent GLFW_KEY_4 0 GLFW_PRESS 0) initial_world) in
  reachable probe_lib w /\ valid_space (activeSpace w).
Proof.
  assert (Hr : reachable probe_lib
                 (render probe_lib 0.0
                    (dispatch (KeyEvent GLFW_KEY_4 0 GLFW_PRESS 0)
                       initial_world))).
  { eapply reachable_step; [|apply step_render].
    eapply reachable_step; [apply reachable_init | apply step_dispatch]. }
  split.
  - exact Hr.
  - apply (activeSpace_invariant probe_lib). exact Hr.
Defined.

(** ** The frame updater *)

Section Frames.

Variable glm : MathLib.

Lemma render_transforms : forall t w,
  frame_transforms_at glm t (uniforms (render glm t w)).
Proof. intros; rewrite render_uniforms; repeat split. Qed.

Lemma iteration_transforms : forall f w,
  frame_transforms_at glm (time f) (uniforms (iteration glm f w)).
Proof.
  intros f w; unfold iteration.
  destruct (glfwPollEvents_fields (events f)
              (render glm (time f) (processInput w))) as [-> _].
  apply render_transforms.
Qed.

Lemma iteration_draws : forall f w,
  draws (iteration glm f w) =
  draws w ++
  [mkDrawCall (mkUniforms (frame_model glm (time f)) (frame_view glm)
                          (frame_projection glm) (activeSpace w)) 36].
Proof.
  intros f w; unfold iteration.
  destruct (glfwPollEvents_fields (events f)
              (render glm (time f) (processInput w))) as [_ ->].
  rewrite render_draws, render_uniforms.
  now destruct (processInput_fields w) as (-> & _ & _ & _ & ->).
Qed.

(** Every draw call the loop adds is the draw call of one of the supplied
    frames, with the transforms of that frame's time. *)
Lemma render_loop_draws : forall fs w,
  exists added,
    draws (snd (render_loop glm fs w)) = draws w ++ added /\
    Forall (fun d => dc_count d = 36 /\
                     exists f, In f fs /\
                       frame_transforms_at glm (time f) (dc_uniforms d))
           added.
Proof.
  induction fs as [|f fs IH]; intros w; simpl;
    destruct (glfwWindowShouldClose w).
  - exists []; split; [now rewrite app_nil_r | constructor].
  - exists []; split; [now rewrite app_nil_r | constructor].
  - exists []; split; [now rewrite app_nil_r | constructor].
  - destruct (IH (iteration glm f w)) as [added [Heq Hall]].
    rewrite iteration_draws, <- app_assoc in Heq.
    eexists; split; [exact Heq|].
    constructor.
    + split; [reflexivity|]. exists f; split; [now left|]. repeat split.
    + eapply Forall_impl; [|exact Hall].
      intros d [Hc [g [Hin Ht]]]; split; [exact Hc|].
      exists g; split; [now right | exact Ht].
Qed.

End Frames.

(** C7.  Every pass through the loop uploads model = rotate(mat4(1.0),
    time, (0.5, 1.0, 0.0)), view = translate(mat4(1.0), (0, 0, -3)) and
    projection = perspective(radians(45), aspect, 0.1, 100.0), whatever the
    state before the pass (nothing is carried from frame to frame); so
    does every draw call of every reachable state, and every draw call the
    loop adds. *)
Theorem frame_transforms_recomputed :
  forall glm : MathLib,
    (forall t w, frame_transforms_at glm t (uniforms (render glm t w))) /\
    (forall f w,
        frame_transforms_at glm (time f) (uniforms (iteration glm f w))) /\
    (forall f w w',
        u_model (uniforms (iteration glm f w)) =
          u_model (uniforms (iteration glm f w')) /\
        u_view (uniforms (iteration glm f w)) =
          u_view (uniforms (iteration glm f w')) /\
        u_projection (uniforms (iteration glm f w)) =
          u_projection (uniforms (iteration glm f w'))) /\
    (forall w, reachable glm w ->
        Forall (fun d => exists t,
                    frame_transforms_at glm t (dc_uniforms d))
               (draws w)) /\
    (forall fs,
        Forall (fun d => exists f, In f fs /\
                    frame_transforms_at glm (time f) (dc_uniforms d))
               (draws (snd (render_loop glm fs initial_world)))).
Proof.
  intro glm.
  split; [apply render_transforms|].
  split; [apply iteration_transforms|].
  split.
  { intros f w w'.
    destruct (iteration_transforms glm f w) as (-> & -> & ->).
    destruct (iteration_transforms glm f w') as (-> & -> & ->).
    repeat split. }
  split.
  { intros w Hr. destruct (world_ok_reachable glm w Hr) as [_ Hd].
    eapply Forall_impl; [|exact Hd].
    intros d [t (Hm & Hv & Hp & _)]. exists t.
    unfold frame_transforms_at. rewrite Hm, Hv, Hp. repeat split. }
  intro fs.
  destruct (render_loop_draws glm fs initial_world) as [added [Heq Hall]].
  simpl in Heq; rewrite Heq.
  eapply Forall_impl; [|exact Hall]. now intros d [_ H].
Qed.

(** Two frames with the stand-in library: both draw calls carry the
    transforms of some frame. *)
Lemma frame_transforms_recomputed_witness :
  let w := render probe_lib 2.5 (render probe_lib 1.0 initial_world) in
  reachable probe_lib w /\
  Forall (fun d => exists t,
              frame_transforms_at probe_lib t (dc_uniforms d))
         (draws w).
Proof.
  assert (Hr : reachable probe_lib
                 (render probe_lib 2.5 (render probe_lib 1.0 initial_world))).
  { eapply reachable_step; [|apply step_render].
    eapply reachable_step; [apply reachable_init | apply step_render]. }
  split.
  - exact Hr.
  - apply (frame_transforms_recomputed probe_lib). exact Hr.
Defined.

(** ** The vertex stage and the host invariant *)

Lemma vs_main_defined : forall model view projection aPos a,
  valid_space a ->
  exists p c,
    vs_main model view projection a aPos = mkVSOut (Some p) (Some c).
Proof.
  intros model view projection aPos a [-> | [-> | [-> | ->]]];
    do 2 eexists; reflexivity.
Qed.

(** C10.  For an [activeSpace] outside 0..3 the vertex stage writes
    neither gl_Position nor vertexColor; the value uploaded on line 244 in
    a reachable state is always inside 0..3, so for every draw call the
    program issues both outputs are written. *)
Theorem vs_main_fallthrough :
  (forall model view projection aPos a,
      ~ valid_space a ->
      vs_main model view projection a aPos = mkVSOut None None) /\
  (forall model view projection aPos a,
      valid_space a ->
      exists p c,
        vs_main model view projection a aPos = mkVSOut (Some p) (Some c)) /\
  (forall glm w,
      reachable glm w ->
      Forall (fun d =>
                valid_space (u_activeSpace (dc_uniforms d)) /\
                forall aPos, exists p c,
                  vs_main (u_model (dc_uniforms d)) (u_view (dc_uniforms d))
                          (u_projection (dc_uniforms d))
                          (u_activeSpace (dc_uniforms d)) aPos =
                  mkVSOut (Some p) (Some c))
             (draws w)).
Proof.
  split.
  - intros model view projection aPos a Hn.
    unfold vs_main; cbv zeta.
    destruct (Z.eqb_spec a 0) as [->|_]; [elim Hn; now left|].
    destruct (Z.eqb_spec a 1) as [->|_]; [elim Hn; right; now left|].
    destruct (Z.eqb_spec a 2) as [->|_];
      [elim Hn; right; right; now left|].
    destruct (Z.eqb_spec a 3) as [->|_];
      [elim Hn; right; right; now right|].
    reflexivity.
  - split; [exact vs_main_defined|].
    intros glm w Hr.
    destruct (world_ok_reachable glm w Hr) as [_ Hd].
    eapply Forall_impl; [|exact Hd].
    intros d [t (_ & _ & _ & Hv & _)].
    split; [exact Hv|].
    intro aPos. now apply vs_main_defined.
Qed.

(** The value 7 falls through every branch. *)
Lemma vs_main_fallthrough_witness :
  ~ valid_space 7 /\
  vs_main mat4_zero mat4_zero mat4_zero 7 (mkvec3 0.5 0.5 0.5) =
  mkVSOut None None.
Proof.
  assert (Hn : ~ valid_space 7).
  { unfold valid_space, MODEL_SPACE, WORLD_SPACE, VIEW_SPACE, CLIP_SPACE.
    intros [H | [H | [H | H]]]; discriminate H. }
  split.
  - exact Hn.
  - apply (proj1 vs_main_fallthrough). exact Hn.
Defined.

(** ** The geometry *)


(** C9.  Every one of the 36 indices lies in 0..7, and the attribute fetch
    of every index reads inside the vertex array (which ends after vertex
    7). *)
Theorem indices_in_bounds :
  List.length indices = 36%nat /\
  Forall (fun i => 0 <= i <= 7) indices /\
  Forall (fun i => exists v, fetch_vertex vertices i = Some v) indices /\
  (forall i, 0 <= i <= 7 -> exists v, fetch_vertex vertices i = Some v) /\
  fetch_vertex vertices 8 = None.
Proof.
  split; [reflexivity|].
  split; [repeat constructor; lia|].
  split; [repeat constructor; eexists; reflexivity|].
  split; [|reflexivity].
  intros i Hi.
  assert (H : i = 0 \/ i = 1 \/ i = 2 \/ i = 3 \/
              i = 4 \/ i = 5 \/ i = 6 \/ i = 7) by lia.
  repeat (destruct H as [-> | H]; [eexists; reflexivity|]).
  subst i; eexists; reflexivity.
Qed.

(** Index 5 is in range and its fetch succeeds. *)
Lemma indices_in_bounds_witness :
  0 <= 5 <= 7 /\ exists v, fetch_vertex vertices 5 = Some v.
Proof.
  split.
  - lia.
  - apply (proj1 (proj2 (proj2 (proj2 indices_in_bounds)))). lia.
Defined.

(** ** Resizing *)

(** C2, as stated, fails.  After a resize to 1000 x 500 the next frame
    still uploads the projection of aspect 800/600: with the stand-in
    library the uploaded matrix is not the one of aspect 1000/500, and the
    two ratios differ as rationals. *)
Lemma resize_sets_aspect_counterexample :
  ~ resize_sets_aspect probe_lib 1000 500 /\
  ~ (inject_Z SCR_WIDTH / inject_Z SCR_HEIGHT ==
     inject_Z 1000 / inject_Z 500)%Q.
Proof.
  split.
  - intro H.
    specialize (H initial_world (mkFrameInput 0.0 [])).
    vm_compute in H. discriminate H.
  - vm_compute. discriminate.
Qed.

(** C2, amended.  A resize to (W,H) sets the viewport to (0, 0, W, H), and
    the rendering part of a frame keeps it; the projection uploaded by
    every later frame is perspective(radians(45), SCR_WIDTH / SCR_HEIGHT,
    0.1, 100.0), of aspect 800/600 = 4/3 whatever W and H are. *)
Theorem resize_viewport_fixed_aspect :
  forall (glm : MathLib) (W H : Z) (w : World),
    viewport (framebuffer_size_callback W H w) =
      Some (mkViewport 0 0 W H) /\
    viewport (dispatch (FramebufferSizeEvent W H) w) =
      Some (mkViewport 0 0 W H) /\
    (forall t,
        viewport (render glm t (processInput
                                  (framebuffer_size_callback W H w))) =
        Some (mkViewport 0 0 W H)) /\
    (forall f,
        u_projection
          (uniforms (iteration glm f (framebuffer_size_callback W H w))) =
        glm_perspective glm (glm_radians glm 45.0)
                        (inject_Z SCR_WIDTH / inject_Z SCR_HEIGHT)
                        0.1 100.0) /\
    (forall fs, exists added,
        draws (snd (render_loop glm fs (framebuffer_size_callback W H w))) =
          draws w ++ added /\
        Forall (fun d =>
                  u_projection (dc_uniforms d) =
                  glm_perspective glm (glm_radians glm 45.0)
                                  (inject_Z SCR_WIDTH / inject_Z SCR_HEIGHT)
                                  0.1 100.0)
               added) /\
    (inject_Z SCR_WIDTH / inject_Z SCR_HEIGHT == 4 # 3)%Q.
Proof.
  intros glm W H w.
  split; [reflexivity|].
  split; [reflexivity|].
  split.
  { intro t.
    destruct (render_fields glm t
                (processInput (framebuffer_size_callback W H w)))
      as (_ & _ & _ & ->).
    now destruct (processInput_fields (framebuffer_size_callback W H w))
      as (_ & _ & -> & _). }
  split.
  { intro f. apply (iteration_transforms glm f). }
  split; [|reflexivity].
  intro fs.
  destruct (render_loop_draws glm fs (framebuffer_size_callback W H w))
    as [added [Heq Hall]].
  exists added; split; [exact Heq|].
  eapply Forall_impl; [|exact Hall].
  intros d [_ [f [_ (_ & _ & Hp)]]]. exact Hp.
Qed.

(** ** Escape *)

(** C3, as stated, fails.  An Escape press that is released again within
    the same batch of events is a press edge, yet the next processInput
    polls the key as released and the close flag stays down; the loop is
    still running two frames later. *)
Lemma escape_edge_triggered_counterexample :
  ~ escape_edge_triggered /\
  fst (render_loop probe_lib
         [ mkFrameInput 0.0 [ KeyEvent GLFW_KEY_ESCAPE 9 GLFW_PRESS 0;
                              KeyEvent GLFW_KEY_ESCAPE 9 GLFW_RELEASE 0 ];
           mkFrameInput 1.0 [];
           mkFrameInput 2.0 [] ]
         initial_world)
  = false.
Proof.
  split.
  - intro H.
    specialize (H initial_world
                  [ KeyEvent GLFW_KEY_ESCAPE 9 GLFW_PRESS 0;
                    KeyEvent GLFW_KEY_ESCAPE 9 GLFW_RELEASE 0 ]
                  9 0 (or_introl eq_refl)).
    vm_compute in H. discriminate H.
  - vm_compute. reflexivity.
Qed.

Lemma render_loop_closed : forall glm fs w,
  shouldClose w = true -> render_loop glm fs w = (true, w).
Proof.
  intros glm fs w Hc.
  destruct fs; simpl; unfold glfwWindowShouldClose; now rewrite Hc.
Qed.

Lemma dispatch_key_shouldClose : forall key scancode action mods w,
  shouldClose (dispatch (KeyEvent key scancode action mods) w) =
  shouldClose w.
Proof.
  intros; simpl.
  destruct (key_callback_fields key scancode action mods
              (glfw_input_key key action w)) as (-> & _).
  now destruct (glfw_input_key_fields key action w) as (_ & -> & _).
Qed.

(** C3, amended.  Escape is polled, not edge-triggered: processInput
    raises the close flag exactly when the polled state of Escape is
    GLFW_PRESS and otherwise leaves the flag alone; no key event, an
    Escape press included, changes the flag when it is dispatched; a
    raised flag is never lowered.  If Escape is polled as pressed with the
    flag down, the loop runs that one pass and exits, whatever the
    remaining frames bring: holding the key cannot be told from a press
    that is seen by one poll. *)
Theorem escape_level_triggered :
  forall glm : MathLib,
    (forall w,
        shouldClose (processInput w) =
        shouldClose w || (glfwGetKey GLFW_KEY_ESCAPE w =? GLFW_PRESS)) /\
    (forall key scancode action mods w,
        shouldClose (dispatch (KeyEvent key scancode action mods) w) =
        shouldClose w) /\
    (forall f w,
        shouldClose w = true -> shouldClose (iteration glm f w) = true) /\
    (forall f fs w,
        shouldClose w = false ->
        glfwGetKey GLFW_KEY_ESCAPE w = GLFW_PRESS ->
        render_loop glm (f :: fs) w = (true, iteration glm f w)) /\
    (forall t w,
        shouldClose w = false ->
        glfwGetKey GLFW_KEY_ESCAPE w <> GLFW_PRESS ->
        shouldClose (render glm t (processInput w)) = false).
Proof.
  intro glm.
  split; [exact processInput_shouldClose|].
  split; [exact dispatch_key_shouldClose|].
  split.
  { intros f w Hc. apply iteration_keeps_close.
    rewrite processInput_shouldClose, Hc. reflexivity. }
  split.
  { intros f fs w Hc Hk.
    simpl. unfold glfwWindowShouldClose. rewrite Hc.
    apply render_loop_closed, iteration_keeps_close.
    rewrite processInput_shouldClose. unfold glfwGetKey in Hk.
    rewrite Hk, orb_true_r. reflexivity. }
  intros t w Hc Hk.
  destruct (render_fields glm t (processInput w)) as (_ & -> & _).
  rewrite processInput_shouldClose, Hc. unfold glfwGetKey in Hk.
  simpl. now apply Z.eqb_neq.
Qed.

(** Escape pressed and then held (repeat events) over the following
    frames: the loop exits after the first pass. *)
Lemma escape_level_triggered_witness :
  let w := dispatch (KeyEvent GLFW_KEY_ESCAPE 9 GLFW_PRESS 0) initial_world in
  let held := [KeyEvent GLFW_KEY_ESCAPE 9 GLFW_REPEAT 0] in
  shouldClose w = false /\
  glfwGetKey GLFW_KEY_ESCAPE w = GLFW_PRESS /\
  render_loop probe_lib
    [mkFrameInput 1.0 held; mkFrameInput 2.0 held; mkFrameInput 3.0 held] w
  = (true, iteration probe_lib (mkFrameInput 1.0 held) w).
Proof.
  split; [reflexivity|].
  split; [reflexivity|].
  apply (proj1 (proj2 (proj2 (proj2 (escape_level_triggered probe_lib)))));
    reflexivity.
Defined.

(** ** Start-up and exit *)

(** C6.  main returns -1 exactly when window creation or the GLAD loader
    fails, having printed the matching diagnostic; when both succeed, main
    prints, in this order, the vertex, the fragment and the link diagnostic
    of each shader check that failed (the ERROR::SHADER:: header, a
    newline and the info log) and nothing else, enters the render loop all
    the same (the run is the run with all checks succeeding), and returns
    0 when the loop exits, which a close request in the supplied frames
    brings about. *)
Theorem main_exit_codes :
  forall (glm : MathLib) (e : Env),
    (status (main glm e) = Exited (-1) <->
     window_created e = false \/ glad_loaded e = false) /\
    (window_created e = false ->
     main glm e =
     mkRun (Exited (-1)) ["Failed to create GLFW window"%string] None) /\
    (window_created e = true -> glad_loaded e = false ->
     main glm e =
     mkRun (Exited (-1)) ["Failed to initialize GLAD"%string] None) /\
    (window_created e = true -> glad_loaded e = true ->
     stdout (main glm e) = shader_diagnostics e /\
     final (main glm e) =
       Some (snd (render_loop glm (frames e) initial_world)) /\
     status (main glm e) = status (main glm (with_shaders_ok e)) /\
     final (main glm e) = final (main glm (with_shaders_ok e)) /\
     status (main glm e) =
       (if fst (render_loop glm (frames e) initial_world)
        then Exited 0 else Looping) /\
     ((exists f, In f (frames e) /\ In CloseEvent (events f)) ->
      status (main glm e) = Exited 0)) /\
    (vertex_compiled e = true -> fragment_compiled e = true ->
     program_linked e = true -> shader_diagnostics e = []) /\
    (window_created e = true -> glad_loaded e = true ->
     stdout (main glm e) =
       (if vertex_compiled e then []
        else ["ERROR::SHADER::VERTEX::COMPILATION_FAILED" ++ newline
                ++ vertex_log e]%string)
       ++ (if fragment_compiled e then []
           else ["ERROR::SHADER::FRAGMENT::COMPILATION_FAILED" ++ newline
                   ++ fragment_log e]%string)
       ++ (if program_linked e then []
           else ["ERROR::SHADER::PROGRAM::LINKING_FAILED" ++ newline
                   ++ link_log e]%string) /\
     (vertex_compiled e = false ->
      In ("ERROR::SHADER::VERTEX::COMPILATION_FAILED" ++ newline
            ++ vertex_log e)%string
         (stdout (main glm e))) /\
     (fragment_compiled e = false ->
      In ("ERROR::SHADER::FRAGMENT::COMPILATION_FAILED" ++ newline
            ++ fragment_log e)%string
         (stdout (main glm e))) /\
     (program_linked e = false ->
      In ("ERROR::SHADER::PROGRAM::LINKING_FAILED" ++ newline
            ++ link_log e)%string
         (stdout (main glm e))) /\
     (forall line,
        In line (stdout (main glm e)) ->
        (vertex_compiled e = false /\
         line = ("ERROR::SHADER::VERTEX::COMPILATION_FAILED" ++ newline
                   ++ vertex_log e)%string) \/
        (fragment_compiled e = false /\
         line = ("ERROR::SHADER::FRAGMENT::COMPILATION_FAILED" ++ newline
                   ++ fragment_log e)%string) \/
        (program_linked e = false /\
         line = ("ERROR::SHADER::PROGRAM::LINKING_FAILED" ++ newline
                   ++ link_log e)%string))).
Proof.
  intros glm e.
  assert (Hquiet : vertex_compiled e = true -> fragment_compiled e = true ->
                   program_linked e = true -> shader_diagnostics e = [])
    by (unfold shader_diagnostics; intros -> -> ->; reflexivity).
  assert (Hlines :
    shader_diagnostics e =
      (if vertex_compiled e then []
       else ["ERROR::SHADER::VERTEX::COMPILATION_FAILED" ++ newline
               ++ vertex_log e]%string)
      ++ (if fragment_compiled e then []
          else ["ERROR::SHADER::FRAGMENT::COMPILATION_FAILED" ++ newline
                  ++ fragment_log e]%string)
      ++ (if program_linked e then []
          else ["ERROR::SHADER::PROGRAM::LINKING_FAILED" ++ newline
                  ++ link_log e]%string) /\
    (vertex_compiled e = false ->
     In ("ERROR::SHADER::VERTEX::COMPILATION_FAILED" ++ newline
           ++ vertex_log e)%string
        (shader_diagnostics e)) /\
    (fragment_compiled e = false ->
     In ("ERROR::SHADER::FRAGMENT::COMPILATION_FAILED" ++ newline
           ++ fragment_log e)%string
        (shader_diagnostics e)) /\
    (program_linked e = false ->
     In ("ERROR::SHADER::PROGRAM::LINKING_FAILED" ++ newline
           ++ link_log e)%string
        (shader_diagnostics e)) /\
    (forall line,
       In line (shader_diagnostics e) ->
       (vertex_compiled e = false /\
        line = ("ERROR::SHADER::VERTEX::COMPILATION_FAILED" ++ newline
                  ++ vertex_log e)%string) \/
       (fragment_compiled e = false /\
        line = ("ERROR::SHADER::FRAGMENT::COMPILATION_FAILED" ++ newline
                  ++ fragment_log e)%string) \/
       (program_linked e = false /\
        line = ("ERROR::SHADER::PROGRAM::LINKING_FAILED" ++ newline
                  ++ link_log e)%string))).
  { unfold shader_diagnostics.
    set (V := ("ERROR::SHADER::VERTEX::COMPILATION_FAILED" ++ newline
                 ++ vertex_log e)%string).
    set (F := ("ERROR::SHADER::FRAGMENT::COMPILATION_FAILED" ++ newline
                 ++ fragment_log e)%string).
    set (L := ("ERROR::SHADER::PROGRAM::LINKING_FAILED" ++ newline
                 ++ link_log e)%string).
    split; [reflexivity|].
    destruct (vertex_compiled e), (fragment_compiled e), (program_linked e);
      cbn [app In]; repeat split; try discriminate; auto;
      intros line H; intuition auto. }
  unfold main.
  destruct (window_created e) eqn:Hw; simpl.
  2:{ repeat split; try discriminate; auto. }
  destruct (glad_loaded e) eqn:Hg; simpl.
  2:{ repeat split; try discriminate; auto. }
  pose proof (render_loop_closes glm (frames e) initial_world) as Hclose.
  destruct (render_loop glm (frames e) initial_world) as [closed w] eqn:E.
  simpl in *.
  split.
  { split; [|intros [H|H]; discriminate H].
    destruct closed; discriminate. }
  split; [discriminate|].
  split; [discriminate|].
  split.
  { intros _ _. repeat split.
    - rewrite ?Hw, ?Hg; simpl. now rewrite ?E.
    - rewrite ?Hw, ?Hg; simpl. now rewrite ?E.
    - intro Hex. now rewrite (Hclose Hex). }
  split; [exact Hquiet|].
  intros _ _. exact Hlines.
Qed.

(** A run in which the vertex shader fails to compile and the user closes
    the window during the first frame: the vertex diagnostic is printed,
    and it is the only line; the exit code is 0. *)
Lemma main_exit_codes_witness :
  let e := mkEnv true true false "0:1: syntax error" true EmptyString
                 true EmptyString [mkFrameInput 0.0 [CloseEvent]] in
  window_created e = true /\ glad_loaded e = true /\
  vertex_compiled e = false /\
  (exists f, In f (frames e) /\ In CloseEvent (events f)) /\
  status (main probe_lib e) = Exited 0 /\
  In ("ERROR::SHADER::VERTEX::COMPILATION_FAILED" ++ newline
        ++ "0:1: syntax error")%string
     (stdout (main probe_lib e)) /\
  stdout (main probe_lib e) =
    ["ERROR::SHADER::VERTEX::COMPILATION_FAILED" ++ newline
       ++ "0:1: syntax error"]%string.
Proof.
  split; [reflexivity|].
  split; [reflexivity|].
  split; [reflexivity|].
  assert (Hex : exists f,
             In f [mkFrameInput 0.0 [CloseEvent]] /\
             In CloseEvent (events f)).
  { exists (mkFrameInput 0.0 [CloseEvent]); split; left; reflexivity. }
  split; [exact Hex|].
  destruct (main_exit_codes probe_lib
              (mkEnv true true false "0:1: syntax error" true EmptyString
                     true EmptyString [mkFrameInput 0.0 [CloseEvent]]))
    as (_ & _ & _ & Hrun & _ & Hout).
  destruct (Hrun eq_refl eq_refl) as (_ & _ & _ & _ & _ & Hclose).
  destruct (Hout eq_refl eq_refl) as (Hlist & Hvertex & _).
  split; [exact (Hclose Hex)|].
  split; [exact (Hvertex eq_refl) | exact Hlist].
Defined.

(** * Further properties of the code *)

(** ** The vertex and fragment stages together *)

(** Applying a product of two matrices is applying one after the other,
    in exact arithmetic. *)
Lemma mat_mul_vec : forall a b v,
  vec4_equiv ((a ** b) *| v)%glsl (a *| (b *| v))%glsl.
Proof.
  intros [[a00 a01 a02 a03] [a10 a11 a12 a13]
          [a20 a21 a22 a23] [a30 a31 a32 a33]]
         [[b00 b01 b02 b03] [b10 b11 b12 b13]
          [b20 b21 b22 b23] [b30 b31 b32 b33]]
         [vx vy vz vw].
  cbv [vec4_equiv mat_mul mat_vec vec4_add vec4_scale
       x4 y4 z4 w4 col0 col1 col2 col3].
  repeat split; ring.
Qed.

Lemma vec4_equiv_trans : forall a b c,
  vec4_equiv a b -> vec4_equiv b c -> vec4_equiv a c.
Proof.
  intros a b c (H1 & H2 & H3 & H4) (K1 & K2 & K3 & K4).
  repeat split; etransitivity; eassumption.
Qed.

(** X1.  In exact arithmetic the position emitted for [activeSpace] 1, 2
    or 3 is the [clipPos] of lines 41-44 (model, then view, then
    projection applied to the vertex), and the position emitted for
    [activeSpace] 0 is that [clipPos] computed with the model step left
    out. *)
Theorem gl_Position_is_clipPos :
  forall (model view projection : mat4) (aPos : vec3) (a : Z),
    (a = 1 \/ a = 2 \/ a = 3 ->
     exists p,
       gl_Position (vs_main model view projection a aPos) = Some p /\
       vec4_equiv p (vs_clipPos model view projection aPos)) /\
    (a = 0 ->
     exists p,
       gl_Position (vs_main model view projection a aPos) = Some p /\
       vec4_equiv p (projection *| (view *| vec4_of aPos 1.0))%glsl).
Proof.
  intros model view projection aPos a.
  assert (H123 : vec4_equiv
                   (projection ** view ** model *| vec4_of aPos 1.0)%glsl
                   (vs_clipPos model view projection aPos)).
  { unfold vs_clipPos; cbv zeta.
    eapply vec4_equiv_trans; [apply mat_mul_vec|].
    apply mat_mul_vec. }
  split.
  - intros [-> | [-> | ->]]; eexists; (split; [reflexivity | exact H123]).
  - intros ->. eexists; split; [reflexivity | apply mat_mul_vec].
Qed.

(** The corner (0.5, -0.5, 0.5) under a model matrix that doubles lengths,
    a view that moves by (0, 0, -3) and the identity as projection, with
    [activeSpace] 2. *)
Lemma gl_Position_is_clipPos_witness :
  let model := mkmat4 (mkvec4 2.0 0.0 0.0 0.0) (mkvec4 0.0 2.0 0.0 0.0)
                      (mkvec4 0.0 0.0 2.0 0.0) (mkvec4 0.0 0.0 0.0 1.0) in
  let view := probe_translate (probe_mat4 1.0) (mkvec3 0.0 0.0 (-3.0)) in
  let projection := probe_mat4 1.0 in
  let aPos := mkvec3 0.5 (-0.5) 0.5 in
  (2 = 1 \/ 2 = 2 \/ 2 = 3) /\
  exists p,
    gl_Position (vs_main model view projection 2 aPos) = Some p /\
    vec4_equiv p (vs_clipPos model view projection aPos).
Proof.
  split.
  - right; left; reflexivity.
  - apply (proj1 (gl_Position_is_clipPos
                    (mkmat4 (mkvec4 2.0 0.0 0.0 0.0) (mkvec4 0.0 2.0 0.0 0.0)
                            (mkvec4 0.0 0.0 2.0 0.0) (mkvec4 0.0 0.0 0.0 1.0))
                    (probe_translate (probe_mat4 1.0)
                                     (mkvec3 0.0 0.0 (-3.0)))
                    (probe_mat4 1.0) (mkvec3 0.5 (-0.5) 0.5) 2)).
    right; left; reflexivity.
Defined.





(** ** Event batches *)

Lemma glfwPollEvents_app : forall pre post w,
  glfwPollEvents (pre ++ post) w = glfwPollEvents post (glfwPollEvents pre w).
Proof. intros; unfold glfwPollEvents; apply fold_left_app. Qed.

Lemma dispatch_title : forall e w, title (dispatch e w) = title w.
Proof.
  intros [key scancode action mods | width height | ] w; simpl; auto.
  unfold key_callback, glfw_input_key; by_cases.
Qed.

Lemma glfwPollEvents_title : forall batch w,
  title (glfwPollEvents batch w) = title w.
Proof.
  unfold glfwPollEvents.
  induction batch as [|e batch IH]; intros w; simpl; [reflexivity|].
  rewrite IH. apply dispatch_title.
Qed.

Lemma is_space_key_range : forall key,
  is_space_key key = true <-> GLFW_KEY_1 <= key <= GLFW_KEY_4.
Proof.
  intro key; unfold is_space_key, GLFW_KEY_1, GLFW_KEY_2, GLFW_KEY_3,
    GLFW_KEY_4.
  rewrite !orb_true_iff, !Z.eqb_eq. lia.
Qed.

(** One event: the new [activeSpace] is [key - '1'] for a press of a digit
    key '1'..'4' and the old one otherwise. *)
Lemma dispatch_activeSpace : forall e w,
  activeSpace (dispatch e w) =
  match e with
  | KeyEvent key _ _ _ =>
      if is_space_press e then space_of_key key else activeSpace w
  | _ => activeSpace w
  end.
Proof.
  intros [key scancode action mods | width height | ] w;
    [|reflexivity|reflexivity].
  rewrite dispatch_key_activeSpace.
  unfold key_callback, is_space_press, is_space_key, space_of_key.
  destruct (action =? GLFW_PRESS); simpl; [|reflexivity].
  destruct (Z.eqb_spec key GLFW_KEY_1) as [->|_]; [reflexivity|].
  destruct (Z.eqb_spec key GLFW_KEY_2) as [->|_]; [reflexivity|].
  destruct (Z.eqb_spec key GLFW_KEY_3) as [->|_]; [reflexivity|].
  destruct (Z.eqb_spec key GLFW_KEY_4) as [->|_]; reflexivity.
Qed.

Lemma glfwPollEvents_activeSpace : forall batch w,
  activeSpace (glfwPollEvents batch w) = space_after batch (activeSpace w).
Proof.
  unfold glfwPollEvents, space_after.
  induction batch as [|e batch IH]; intros w; simpl; [reflexivity|].
  rewrite IH, dispatch_activeSpace.
  destruct e; reflexivity.
Qed.

Lemma space_after_no_press : forall batch a,
  forallb (fun e => negb (is_space_press e)) batch = true ->
  space_after batch a = a.
Proof.
  unfold space_after.
  induction batch as [|e batch IH]; intros a Hq; simpl in *; [reflexivity|].
  apply andb_true_iff in Hq as [He Hq].
  rewrite IH by exact Hq.
  destruct e; try reflexivity.
  apply negb_true_iff in He. now rewrite He.
Qed.

(** X3.  After a batch of events [activeSpace] is decided by the last
    press of a digit key '1'..'4' in the batch: it is that key's code
    minus the code of '1', whatever came before; a batch without such a
    press leaves it unchanged. *)
Theorem last_space_press_wins :
  forall w : World,
    (forall batch,
        activeSpace (glfwPollEvents batch w) =
        space_after batch (activeSpace w)) /\
    (forall batch,
        forallb (fun e => negb (is_space_press e)) batch = true ->
        activeSpace (glfwPollEvents batch w) = activeSpace w) /\
    (forall pre post key scancode mods,
        GLFW_KEY_1 <= key <= GLFW_KEY_4 ->
        forallb (fun e => negb (is_space_press e)) post = true ->
        activeSpace
          (glfwPollEvents
             (pre ++ KeyEvent key scancode GLFW_PRESS mods :: post) w) =
        key - GLFW_KEY_1 /\
        valid_space (key - GLFW_KEY_1)).
Proof.
  intro w.
  split; [intro batch; apply glfwPollEvents_activeSpace|].
  split.
  { intros batch Hq.
    rewrite glfwPollEvents_activeSpace. now apply space_after_no_press. }
  intros pre post key scancode mods Hk Hq.
  split.
  - rewrite glfwPollEvents_app, glfwPollEvents_activeSpace.
    change (KeyEvent key scancode GLFW_PRESS mods :: post)
      with ([KeyEvent key scancode GLFW_PRESS mods] ++ post).
    unfold space_after. rewrite fold_left_app.
    fold (space_after post). rewrite space_after_no_press by exact Hq.
    simpl. apply is_space_key_range in Hk. now rewrite Hk.
  - unfold valid_space, MODEL_SPACE, WORLD_SPACE, VIEW_SPACE, CLIP_SPACE,
      GLFW_KEY_1, GLFW_KEY_4 in *. lia.
Qed.

(** '2', then a resize, then '4', then a release of '1': the state ends in
    CLIP_SPACE. *)
Lemma last_space_press_wins_witness :
  let pre := [KeyEvent GLFW_KEY_2 0 GLFW_PRESS 0;
              FramebufferSizeEvent 640 480] in
  let post := [KeyEvent GLFW_KEY_1 0 GLFW_RELEASE 0] in
  GLFW_KEY_1 <= GLFW_KEY_4 <= GLFW_KEY_4 /\
  forallb (fun e => negb (is_space_press e)) post = true /\
  activeSpace
    (glfwPollEvents (pre ++ KeyEvent GLFW_KEY_4 0 GLFW_PRESS 0 :: post)
                    initial_world) = CLIP_SPACE.
Proof.
  assert (Hk : GLFW_KEY_1 <= GLFW_KEY_4 <= GLFW_KEY_4)
    by (unfold GLFW_KEY_1, GLFW_KEY_4; lia).
  split; [exact Hk|].
  split; [reflexivity|].
  apply (proj2 (proj2 (last_space_press_wins initial_world))
           [KeyEvent GLFW_KEY_2 0 GLFW_PRESS 0; FramebufferSizeEvent 640 480]
           [KeyEvent GLFW_KEY_1 0 GLFW_RELEASE 0] GLFW_KEY_4 0 0 Hk
           eq_refl).
Defined.

(** ** The viewport *)

Lemma dispatch_viewport : forall e w,
  is_resize e = false -> viewport (dispatch e w) = viewport w.
Proof.
  intros [key scancode action mods | width height | ] w He; simpl;
    [|discriminate He|reflexivity].
  destruct (key_callback_fields key scancode action mods
              (glfw_input_key key action w)) as (_ & _ & -> & _).
  now destruct (glfw_input_key_fields key action w) as (_ & _ & -> & _).
Qed.

Lemma glfwPollEvents_viewport : forall batch w,
  forallb (fun e => negb (is_resize e)) batch = true ->
  viewport (glfwPollEvents batch w) = viewport w.
Proof.
  unfold glfwPollEvents.
  induction batch as [|e batch IH]; intros w Hq; simpl in *; [reflexivity|].
  apply andb_true_iff in Hq as [He Hq].
  rewrite IH by exact Hq.
  apply dispatch_viewport. now apply negb_true_iff.
Qed.

Lemma iteration_viewport : forall glm f w,
  forallb (fun e => negb (is_resize e)) (events f) = true ->
  viewport (iteration glm f w) = viewport w.
Proof.
  intros glm f w Hq; unfold iteration.
  rewrite glfwPollEvents_viewport by exact Hq.
  destruct (render_fields glm (time f) (processInput w)) as (_ & _ & _ & ->).
  now destruct (processInput_fields w) as (_ & _ & -> & _).
Qed.

(** X4.  The viewport is whatever the last resize event of a batch asked
    for, with origin (0, 0) and with no check on the size (a 0 x 0
    framebuffer gives a 0 x 0 viewport); nothing but a resize event changes
    it, so a run without resize events never sets a viewport at all. *)
Theorem last_resize_wins :
  forall (glm : MathLib) (w : World),
    (forall batch,
        forallb (fun e => negb (is_resize e)) batch = true ->
        viewport (glfwPollEvents batch w) = viewport w) /\
    (forall pre post W H,
        forallb (fun e => negb (is_resize e)) post = true ->
        viewport
          (glfwPollEvents (pre ++ FramebufferSizeEvent W H :: post) w) =
        Some (mkViewport 0 0 W H)) /\
    (forall fs,
        forallb (fun f => forallb (fun e => negb (is_resize e)) (events f))
                fs = true ->
        viewport (snd (render_loop glm fs w)) = viewport w) /\
    (forall fs,
        forallb (fun f => forallb (fun e => negb (is_resize e)) (events f))
                fs = true ->
        viewport (snd (render_loop glm fs initial_world)) = None).
Proof.
  intros glm w.
  assert (Hloop : forall fs w0,
             forallb (fun f => forallb (fun e => negb (is_resize e))
                                       (events f)) fs = true ->
             viewport (snd (render_loop glm fs w0)) = viewport w0).
  { induction fs as [|f fs IH]; intros w0 Hq; simpl in *;
      destruct (glfwWindowShouldClose w0); try reflexivity.
    apply andb_true_iff in Hq as [Hf Hq].
    rewrite IH by exact Hq. now apply iteration_viewport. }
  split; [intros batch Hq; now apply glfwPollEvents_viewport|].
  split.
  { intros pre post W H Hq.
    rewrite glfwPollEvents_app.
    change (FramebufferSizeEvent W H :: post)
      with ([FramebufferSizeEvent W H] ++ post).
    rewrite glfwPollEvents_app, glfwPollEvents_viewport by exact Hq.
    reflexivity. }
  split; [intros fs Hq; now apply Hloop|].
  intros fs Hq. now rewrite Hloop.
Qed.

(** Two resizes in one batch, the second to 0 x 0 (a minimised window),
    followed by a key press. *)
Lemma last_resize_wins_witness :
  let pre := [FramebufferSizeEvent 1024 768] in
  let post := [KeyEvent GLFW_KEY_2 0 GLFW_PRESS 0] in
  forallb (fun e => negb (is_resize e)) post = true /\
  viewport
    (glfwPollEvents (pre ++ FramebufferSizeEvent 0 0 :: post) initial_world)
  = Some (mkViewport 0 0 0 0).
Proof.
  split; [reflexivity|].
  apply (proj1 (proj2 (last_resize_wins probe_lib initial_world))
           [FramebufferSizeEvent 1024 768]
           [KeyEvent GLFW_KEY_2 0 GLFW_PRESS 0] 0 0 eq_refl).
Defined.

(** ** The window title and the uploaded space *)

Lemma iteration_activeSpace : forall glm f w,
  activeSpace (iteration glm f w) = space_after (events f) (activeSpace w).
Proof.
  intros glm f w; unfold iteration.
  rewrite glfwPollEvents_activeSpace.
  destruct (render_fields glm (time f) (processInput w)) as (-> & _).
  now destruct (processInput_fields w) as (-> & _).
Qed.

Lemma iteration_title : forall glm f w,
  title (iteration glm f w) =
  (title_prefix ++ spaceInfo (activeSpace w))%string.
Proof.
  intros glm f w; unfold iteration.
  rewrite glfwPollEvents_title.
  unfold render; cbv zeta; simpl.
  now destruct (processInput_fields w) as (-> & _).
Qed.

(** X5.  The title and the uploaded [activeSpace] of an iteration are
    those of the state the iteration started in: events dispatched at the
    end of the iteration act on [activeSpace] at once but show in the title
    and in the colour only from the next iteration on.  The title is the
    prefix followed by one of the four labels; for a value outside 0..3
    the switch has no case and the title is the bare prefix. *)
Theorem title_follows_frame_start :
  forall (glm : MathLib) (f g : FrameInput) (w : World),
    title (iteration glm f w) =
      (title_prefix ++ spaceInfo (activeSpace w))%string /\
    u_activeSpace (uniforms (iteration glm f w)) = activeSpace w /\
    title (iteration glm g (iteration glm f w)) =
      (title_prefix
       ++ spaceInfo (space_after (events f) (activeSpace w)))%string /\
    u_activeSpace (uniforms (iteration glm g (iteration glm f w))) =
      space_after (events f) (activeSpace w) /\
    (valid_space (activeSpace w) ->
     In (title (iteration glm f w))
        [ "Vertex Transformation Pipeline - MODEL SPACE (Press 1-4 to change)";
          "Vertex Transformation Pipeline - WORLD SPACE (Press 1-4 to change)";
          "Vertex Transformation Pipeline - VIEW SPACE (Press 1-4 to change)";
          "Vertex Transformation Pipeline - CLIP SPACE (Press 1-4 to change)"
        ]%string) /\
    (~ valid_space (activeSpace w) ->
     title (iteration glm f w) = title_prefix).
Proof.
  intros glm f g w.
  assert (Hu : forall f0 w0,
             u_activeSpace (uniforms (iteration glm f0 w0)) = activeSpace w0).
  { intros f0 w0; unfold iteration.
    destruct (glfwPollEvents_fields (events f0)
                (render glm (time f0) (processInput w0))) as [-> _].
    rewrite render_uniforms; simpl.
    now destruct (processInput_fields w0) as (-> & _). }
  split; [apply iteration_title|].
  split; [apply Hu|].
  split; [now rewrite iteration_title, iteration_activeSpace|].
  split; [now rewrite Hu, iteration_activeSpace|].
  rewrite iteration_title.
  split.
  - intros [-> | [-> | [-> | ->]]]; simpl; auto.
  - intro Hn. unfold spaceInfo, valid_space in *.
    destruct (Z.eqb_spec (activeSpace w) MODEL_SPACE); [tauto|].
    destruct (Z.eqb_spec (activeSpace w) WORLD_SPACE); [tauto|].
    destruct (Z.eqb_spec (activeSpace w) VIEW_SPACE); [tauto|].
    destruct (Z.eqb_spec (activeSpace w) CLIP_SPACE); [tauto|].
    unfold title_prefix.
    generalize "Vertex Transformation Pipeline - "%string.
    induction s; simpl; congruence.
Qed.

(** '3' is pressed during the first iteration from the initial state: the
    title of that iteration is one of the four, namely still the MODEL
    SPACE one. *)
Lemma title_follows_frame_start_witness :
  let f := mkFrameInput 0.0 [KeyEvent GLFW_KEY_3 0 GLFW_PRESS 0] in
  valid_space (activeSpace initial_world) /\
  In (title (iteration probe_lib f initial_world))
     [ "Vertex Transformation Pipeline - MODEL SPACE (Press 1-4 to change)";
       "Vertex Transformation Pipeline - WORLD SPACE (Press 1-4 to change)";
       "Vertex Transformation Pipeline - VIEW SPACE (Press 1-4 to change)";
       "Vertex Transformation Pipeline - CLIP SPACE (Press 1-4 to change)"
     ]%string.
Proof.
  assert (Hv : valid_space (activeSpace initial_world)) by (left; reflexivity).
  split; [exact Hv|].
  apply (proj1 (proj2 (proj2 (proj2 (proj2
           (title_follows_frame_start probe_lib
              (mkFrameInput 0.0 [KeyEvent GLFW_KEY_3 0 GLFW_PRESS 0])
              (mkFrameInput 0.0 []) initial_world)))))).
  exact Hv.
Defined.

(** ** The trace of draw calls *)

Lemma render_loop_spaces : forall glm fs w,
  exists n,
    (n <= List.length fs)%nat /\
    map drawn_space (draws (snd (render_loop glm fs w))) =
      map drawn_space (draws w) ++ firstn n (spaces_drawn fs (activeSpace w))
    /\
    List.length (draws (snd (render_loop glm fs w))) =
      (List.length (draws w) + n)%nat /\
    (fst (render_loop glm fs w) = false -> n = List.length fs).
Proof.
  intros glm.
  induction fs as [|f fs IH]; intros w; simpl;
    destruct (glfwWindowShouldClose w) eqn:Hc; simpl.
  - exists 0%nat. rewrite app_nil_r, Nat.add_0_r.
    repeat split; auto; discriminate.
  - exists 0%nat. rewrite app_nil_r, Nat.add_0_r. repeat split; auto.
  - exists 0%nat. rewrite app_nil_r, Nat.add_0_r.
    repeat split; auto with arith; discriminate.
  - destruct (IH (iteration glm f w)) as (n & Hn & Hmap & Hlen & Hrun).
    exists (S n).
    rewrite iteration_activeSpace in Hmap.
    rewrite iteration_draws in Hmap, Hlen.
    rewrite map_app, <- app_assoc in Hmap.
    rewrite length_app in Hlen. simpl in Hlen.
    repeat split.
    + lia.
    + exact Hmap.
    + lia.
    + intro H. now rewrite (Hrun H).
Qed.

(** X6.  The loop issues one draw call per iteration it runs, never more
    than one per supplied frame and exactly one per frame while it has not
    exited; the [activeSpace] of the k-th draw call is the value reached
    by the events of the k-1 iterations before it. *)
Theorem draw_trace :
  forall (glm : MathLib) (fs : list FrameInput) (w : World),
    exists n,
      (n <= List.length fs)%nat /\
      map drawn_space (draws (snd (render_loop glm fs w))) =
        map drawn_space (draws w)
        ++ firstn n (spaces_drawn fs (activeSpace w)) /\
      List.length (draws (snd (render_loop glm fs w))) =
        (List.length (draws w) + n)%nat /\
      (fst (render_loop glm fs w) = false -> n = List.length fs).
Proof. exact render_loop_spaces. Qed.

(** The scenario "start, press '3', press '1'" gives the draw calls of
    spaces 0, 2, 0: red, blue, red. *)
Example draw_trace_scenario :
  map drawn_space
      (draws (snd (render_loop probe_lib
                     [ mkFrameInput 0.0 [KeyEvent GLFW_KEY_3 0 GLFW_PRESS 0];
                       mkFrameInput 1.0 [KeyEvent GLFW_KEY_1 0 GLFW_PRESS 0];
                       mkFrameInput 2.0 [] ]
                     initial_world)))
  = [MODEL_SPACE; VIEW_SPACE; MODEL_SPACE].
Proof. reflexivity. Qed.

(** ** Leaving the loop *)

Lemma dispatch_quiet : forall e w,
  is_exit_event e = false ->
  shouldClose w = false ->
  keys w GLFW_KEY_ESCAPE <> GLFW_PRESS ->
  shouldClose (dispatch e w) = false /\
  keys (dispatch e w) GLFW_KEY_ESCAPE <> GLFW_PRESS.
Proof.
  intros [key scancode action mods | width height | ] w He Hc Hk;
    [|now split|discriminate He].
  cbn [dispatch is_exit_event] in *.
  destruct (key_callback_fields key scancode action mods
              (glfw_input_key key action w)) as (-> & -> & _).
  destruct (glfw_input_key_fields key action w) as (_ & -> & _).
  split; [exact Hc|].
  unfold glfw_input_key.
  destruct ((0 <=? key) && (key <=? GLFW_KEY_LAST)
            && negb (action =? GLFW_REPEAT)); [|exact Hk].
  unfold set_keys; cbn [keys]. rewrite Z.eqb_sym.
  destruct (Z.eqb_spec key GLFW_KEY_ESCAPE) as [->|_]; [|exact Hk].
  cbn [andb] in He.
  now apply Z.eqb_neq.
Qed.

Lemma glfwPollEvents_quiet : forall batch w,
  forallb (fun e => negb (is_exit_event e)) batch = true ->
  shouldClose w = false ->
  keys w GLFW_KEY_ESCAPE <> GLFW_PRESS ->
  shouldClose (glfwPollEvents batch w) = false /\
  keys (glfwPollEvents batch w) GLFW_KEY_ESCAPE <> GLFW_PRESS.
Proof.
  unfold glfwPollEvents.
  induction batch as [|e batch IH]; intros w Hq Hc Hk; simpl in *;
    [now split|].
  apply andb_true_iff in Hq as [He Hq].
  apply negb_true_iff in He.
  destruct (dispatch_quiet e w He Hc Hk) as [Hc' Hk'].
  now apply IH.
Qed.

Lemma iteration_quiet : forall glm f w,
  quiet_frame f = true ->
  shouldClose w = false ->
  keys w GLFW_KEY_ESCAPE <> GLFW_PRESS ->
  shouldClose (iteration glm f w) = false /\
  keys (iteration glm f w) GLFW_KEY_ESCAPE <> GLFW_PRESS.
Proof.
  intros glm f w Hq Hc Hk; unfold iteration.
  apply glfwPollEvents_quiet; [exact Hq| |].
  - destruct (render_fields glm (time f) (processInput w)) as (_ & -> & _).
    rewrite processInput_shouldClose, Hc. simpl. now apply Z.eqb_neq.
  - destruct (render_fields glm (time f) (processInput w))
      as (_ & _ & -> & _).
    now destruct (processInput_fields w) as (_ & -> & _).
Qed.

Lemma render_loop_quiet : forall glm fs w,
  forallb quiet_frame fs = true ->
  shouldClose w = false ->
  keys w GLFW_KEY_ESCAPE <> GLFW_PRESS ->
  fst (render_loop glm fs w) = false.
Proof.
  intros glm.
  induction fs as [|f fs IH]; intros w Hq Hc Hk; simpl in *;
    unfold glfwWindowShouldClose; rewrite Hc; [reflexivity|].
  apply andb_true_iff in Hq as [Hf Hq].
  destruct (iteration_quiet glm f w Hf Hc Hk) as [Hc' Hk'].
  now apply IH.
Qed.

(** Three frames with key presses but no exit event: three draw calls. *)
Lemma draw_trace_witness :
  let fs := [ mkFrameInput 0.0 [KeyEvent GLFW_KEY_3 0 GLFW_PRESS 0];
              mkFrameInput 1.0 [KeyEvent GLFW_KEY_1 0 GLFW_PRESS 0];
              mkFrameInput 2.0 [] ] in
  fst (render_loop probe_lib fs initial_world) = false /\
  List.length (draws (snd (render_loop probe_lib fs initial_world))) = 3%nat.
Proof.
  split; [reflexivity|].
  destruct (draw_trace probe_lib
              [ mkFrameInput 0.0 [KeyEvent GLFW_KEY_3 0 GLFW_PRESS 0];
                mkFrameInput 1.0 [KeyEvent GLFW_KEY_1 0 GLFW_PRESS 0];
                mkFrameInput 2.0 [] ]
              initial_world) as (n & _ & _ & Hlen & Hrun).
  rewrite Hlen, (Hrun eq_refl). reflexivity.
Defined.

(** X7.  Only a close request or a press of Escape ends the program: as
    long as the supplied frames hold neither, the loop is still running
    after the last of them, one draw call has been issued per frame, and
    main has not returned. *)
Theorem loop_runs_until_exit_event :
  forall (glm : MathLib) (fs : list FrameInput),
    forallb quiet_frame fs = true ->
    fst (render_loop glm fs initial_world) = false /\
    List.length (draws (snd (render_loop glm fs initial_world))) =
      List.length fs /\
    (forall e,
        window_created e = true -> glad_loaded e = true -> frames e = fs ->
        status (main glm e) = Looping).
Proof.
  intros glm fs Hq.
  assert (Hrun : fst (render_loop glm fs initial_world) = false).
  { apply render_loop_quiet; [exact Hq | reflexivity | discriminate]. }
  split; [exact Hrun|].
  split.
  - destruct (render_loop_spaces glm fs initial_world)
      as (n & _ & _ & Hlen & Hn).
    rewrite Hlen, (Hn Hrun). reflexivity.
  - intros e Hw Hg Hf. unfold main. rewrite Hw, Hg, Hf; simpl.
    destruct (render_loop glm fs initial_world) as [closed w].
    simpl in Hrun. now rewrite Hrun.
Qed.

(** Digit keys, a resize, and a release of Escape that was never pressed:
    no exit event, so the loop keeps running. *)
Lemma loop_runs_until_exit_event_witness :
  let fs := [ mkFrameInput 0.0 [KeyEvent GLFW_KEY_2 0 GLFW_PRESS 0;
                                FramebufferSizeEvent 640 480];
              mkFrameInput 0.5 [KeyEvent GLFW_KEY_ESCAPE 9 GLFW_RELEASE 0] ] in
  forallb quiet_frame fs = true /\
  fst (render_loop probe_lib fs initial_world) = false.
Proof.
  split; [reflexivity|].
  apply (loop_runs_until_exit_event probe_lib
           [ mkFrameInput 0.0 [KeyEvent GLFW_KEY_2 0 GLFW_PRESS 0;
                               FramebufferSizeEvent 640 480];
             mkFrameInput 0.5 [KeyEvent GLFW_KEY_ESCAPE 9 GLFW_RELEASE 0] ]
           eq_refl).
Defined.

Lemma render_loop_app : forall glm fs1 fs2 w,
  render_loop glm (fs1 ++ fs2) w =
  if fst (render_loop glm fs1 w) then render_loop glm fs1 w
  else render_loop glm fs2 (snd (render_loop glm fs1 w)).
Proof.
  intros glm.
  induction fs1 as [|f fs1 IH]; intros fs2 w; simpl.
  - destruct (glfwWindowShouldClose w) eqn:Hc; simpl; [|reflexivity].
    now apply render_loop_closed.
  - destruct (glfwWindowShouldClose w) eqn:Hc; simpl; [reflexivity|].
    apply IH.
Qed.

(** X8.  Running the loop over a list of frames is running it over a
    first part and, if it has not exited, over the rest from the state
    reached; once the loop has exited the remaining frames are not looked
    at: no draw call, no event of theirs has any effect. *)
Theorem frames_after_exit_ignored :
  forall (glm : MathLib) (fs1 fs2 : list FrameInput) (w : World),
    render_loop glm (fs1 ++ fs2) w =
      (if fst (render_loop glm fs1 w) then render_loop glm fs1 w
       else render_loop glm fs2 (snd (render_loop glm fs1 w))) /\
    (fst (render_loop glm fs1 w) = true ->
     render_loop glm (fs1 ++ fs2) w = render_loop glm fs1 w) /\
    ((exists f, In f fs1 /\ In CloseEvent (events f)) ->
     render_loop glm (fs1 ++ fs2) w = render_loop glm fs1 w).
Proof.
  intros glm fs1 fs2 w.
  split; [apply render_loop_app|].
  split.
  - intro H. now rewrite render_loop_app, H.
  - intro Hex. now rewrite render_loop_app, (render_loop_closes glm fs1 w Hex).
Qed.

(** A close request in the first frame: the key press and the resize of
    the frames after it are never seen. *)
Lemma frames_after_exit_ignored_witness :
  let fs1 := [mkFrameInput 0.0 [CloseEvent]] in
  let fs2 := [mkFrameInput 1.0 [KeyEvent GLFW_KEY_4 0 GLFW_PRESS 0];
              mkFrameInput 2.0 [FramebufferSizeEvent 10 10]] in
  fst (render_loop probe_lib fs1 initial_world) = true /\
  render_loop probe_lib (fs1 ++ fs2) initial_world =
  render_loop probe_lib fs1 initial_world.
Proof.
  split; [reflexivity|].
  apply (proj1 (proj2 (frames_after_exit_ignored probe_lib
           [mkFrameInput 0.0 [CloseEvent]]
           [mkFrameInput 1.0 [KeyEvent GLFW_KEY_4 0 GLFW_PRESS 0];
            mkFrameInput 2.0 [FramebufferSizeEvent 10 10]]
           initial_world))).
  reflexivity.
Defined.

(** X9.  The close flag is tested only at the top of the loop.  If it is
    already up nothing is drawn; if it is down and Escape is polled as
    pressed, or a close request arrives with the events of the iteration,
    that iteration still issues its draw call, with the transforms of its
    time and the [activeSpace] it started with, and is the last one. *)
Theorem exiting_iteration_is_rendered :
  forall (glm : MathLib) (f : FrameInput) (fs : list FrameInput) (w : World),
    (shouldClose w = true ->
     draws (snd (render_loop glm (f :: fs) w)) = draws w) /\
    (shouldClose w = false ->
     glfwGetKey GLFW_KEY_ESCAPE w = GLFW_PRESS \/ In CloseEvent (events f) ->
     fst (render_loop glm (f :: fs) w) = true /\
     draws (snd (render_loop glm (f :: fs) w)) =
       draws w ++
       [mkDrawCall
          (mkUniforms (frame_model glm (time f)) (frame_view glm)
                      (frame_projection glm) (activeSpace w)) 36]).
Proof.
  intros glm f fs w.
  split.
  - intro Hc. now rewrite render_loop_closed.
  - intros Hc Hexit.
    assert (Hup : shouldClose (iteration glm f w) = true).
    { destruct Hexit as [Hk | Hin].
      - apply iteration_keeps_close.
        rewrite processInput_shouldClose. unfold glfwGetKey in Hk.
        rewrite Hk, orb_true_r. reflexivity.
      - unfold iteration. now apply glfwPollEvents_close_event. }
    simpl. unfold glfwWindowShouldClose. rewrite Hc.
    rewrite (render_loop_closed glm fs _ Hup). simpl.
    split; [reflexivity | apply iteration_draws].
Qed.

(** Escape is down when the iteration starts, in VIEW_SPACE: one draw call
    of VIEW_SPACE, then the loop is over. *)
Lemma exiting_iteration_is_rendered_witness :
  let w := glfwPollEvents [KeyEvent GLFW_KEY_3 0 GLFW_PRESS 0;
                           KeyEvent GLFW_KEY_ESCAPE 9 GLFW_PRESS 0]
                          initial_world in
  let f := mkFrameInput 4.0 [] in
  shouldClose w = false /\
  glfwGetKey GLFW_KEY_ESCAPE w = GLFW_PRESS /\
  fst (render_loop probe_lib [f; f] w) = true /\
  map drawn_space (draws (snd (render_loop probe_lib [f; f] w))) =
    [VIEW_SPACE].
Proof.
  split; [reflexivity|].
  split; [reflexivity|].
  destruct (proj2 (exiting_iteration_is_rendered probe_lib
                     (mkFrameInput 4.0 []) [mkFrameInput 4.0 []]
                     (glfwPollEvents [KeyEvent GLFW_KEY_3 0 GLFW_PRESS 0;
                                      KeyEvent GLFW_KEY_ESCAPE 9 GLFW_PRESS 0]
                                     initial_world))
              eq_refl (or_introl eq_refl)) as [Hexit Hdraws].
  split; [exact Hexit|].
  rewrite Hdraws. reflexivity.
Defined.

(** ** Diagnostics *)

(** X10.  A start-up that fails prints exactly one line.  A start-up that
    succeeds prints one line per failed shader check, at most three, each
    beginning with ERROR::SHADER::, and prints nothing exactly when the
    three checks succeed. *)
Theorem shader_diagnostics_count :
  forall (glm : MathLib) (e : Env),
    List.length (shader_diagnostics e) = failures e /\
    (failures e <= 3)%nat /\
    Forall (fun line => prefix "ERROR::SHADER::" line = true)
           (shader_diagnostics e) /\
    (shader_diagnostics e = [] <->
     vertex_compiled e = true /\ fragment_compiled e = true /\
     program_linked e = true) /\
    (window_created e = false \/ glad_loaded e = false ->
     List.length (stdout (main glm e)) = 1%nat) /\
    (window_created e = true -> glad_loaded e = true ->
     List.length (stdout (main glm e)) = failures e).
Proof.
  intros glm e.
  assert (Hlen : List.length (shader_diagnostics e) = failures e).
  { unfold shader_diagnostics, failures.
    destruct (vertex_compiled e), (fragment_compiled e), (program_linked e);
      reflexivity. }
  split; [exact Hlen|].
  split.
  { unfold failures.
    destruct (vertex_compiled e), (fragment_compiled e), (program_linked e);
      simpl; lia. }
  split.
  { unfold shader_diagnostics.
    destruct (vertex_compiled e), (fragment_compiled e), (program_linked e);
      simpl; repeat constructor. }
  split.
  { unfold shader_diagnostics.
    destruct (vertex_compiled e), (fragment_compiled e), (program_linked e);
      simpl; split; try tauto; try discriminate;
      intros (H1 & H2 & H3); discriminate. }
  split.
  - intros [H | H]; unfold main; rewrite H; simpl; [reflexivity|].
    destruct (window_created e); reflexivity.
  - intros Hw Hg. unfold main. rewrite Hw, Hg; simpl.
    destruct (render_loop glm (frames e) initial_world); simpl.
    exact Hlen.
Qed.

(** The fragment shader and the link fail, the window is closed at once:
    two lines on stdout. *)
Lemma shader_diagnostics_count_witness :
  let e := mkEnv true true true EmptyString false "0:3: undeclared"
                 false "link error" [mkFrameInput 0.0 [CloseEvent]] in
  window_created e = true /\ glad_loaded e = true /\
  List.length (stdout (main probe_lib e)) = 2%nat.
Proof.
  split; [reflexivity|].
  split; [reflexivity|].
  apply (proj2 (proj2 (proj2 (proj2 (proj2
           (shader_diagnostics_count probe_lib
              (mkEnv true true true EmptyString false "0:3: undeclared"
                     false "link error"
                     [mkFrameInput 0.0 [CloseEvent]])))))) eq_refl eq_refl).
Defined.
